(** * Option resolution of the Bitrise build trigger (src/bitrise/options.ts)

    A shallow embedding of [createBuildOptions] and of the helpers it calls,
    followed by the properties of the option resolver.

    Modelling choices.
    - A JS object used as a bag of fields ([Record<string, any>]) is a finite
      map from field names to values, [gmap string any].  Object spread
      [{...a, ...b}] is the union [b ∪ a] (the right operand wins), and an
      object-literal field [k: v] is an insertion, also when [v] is
      [undefined]: the key is then present and holds [undefined].
    - [core.setFailed], [core.warning] and [core.info] do not throw: they are
      recorded in a log that every function returns next to its value.
    - [github.context], the action inputs and [process.env], ambient globals of
      the source, are explicit arguments.
    - A string is the sequence of bytes of its UTF-8 encoding.  The prefixes
      and the separator the code looks for are ASCII, so [startsWith], [slice]
      and [split] act on bytes as they act on code units; [trim] strips the
      white space of ECMAScript, whose characters have one to three bytes. *)

From Stdlib Require Import NArith Ascii DecimalString DecimalN.
From stdpp Require Import base option list strings gmap fin_maps.

Set Warnings "-clear-no-such-hyp".

(** ** Values and objects *)

(** One entry of [commit_paths]. *)
Record CommitPathsFilter := {
  added : list string;
  removed : list string;
  modified : list string
}.

(** One entry of [environments]. *)
Record BitriseEnvironment := {
  mapped_to : string;
  value : string;
  is_expand : bool
}.

(** The values the resolver stores in an options object. *)
Inductive any :=
| undefined
| JBool (b : bool)
| JNum (n : N)
| JStr (s : string)
| JMessages (l : list string)
| JPaths (l : list CommitPathsFilter)
| JEnvs (l : list BitriseEnvironment).

Abbreviation obj := (gmap string any).

(** [o.k]: a missing key reads as [undefined]. *)
Definition get (o : obj) (k : string) : any := default undefined (o !! k).

(** [o?.k] on an object that may be [null]. *)
Definition get_opt (o : option obj) (k : string) : any :=
  match o with
  | Some o' => get o' k
  | None => undefined
  end.

(** JS truthiness. *)
Definition truthy (v : any) : bool :=
  match v with
  | undefined => false
  | JBool b => b
  | JNum n => negb (N.eqb n 0)
  | JStr EmptyString => false
  | JStr _ => true
  | JMessages _ | JPaths _ | JEnvs _ => true
  end.

Definition truthy_string (s : string) : bool :=
  match s with
  | EmptyString => false
  | _ => true
  end.

(** [a === b] on the primitives the resolver compares (strings and
    [undefined]); [bool_decide] on strings is JS string equality. *)
Definition strict_eq (a b : any) : bool :=
  match a, b with
  | undefined, undefined => true
  | JBool x, JBool y => bool_decide (x = y)
  | JNum x, JNum y => bool_decide (x = y)
  | JStr x, JStr y => bool_decide (x = y)
  | _, _ => false
  end.

(** A string that may be [undefined], stored in an object. *)
Definition of_opt (s : option string) : any :=
  match s with
  | Some s' => JStr s'
  | None => undefined
  end.

(** [s || undefined] *)
Definition or_undefined (s : string) : any :=
  if truthy_string s then JStr s else undefined.

(** A field is set when it holds something else than [undefined]; this is
    what survives [JSON.stringify] on the way to the build API. *)
Definition is_set (o : obj) (k : string) : bool :=
  match o !! k with
  | None | Some undefined => false
  | Some _ => true
  end.

(** ** String primitives *)

(** [s.startsWith(p)] *)
Fixpoint startsWith (s p : string) {struct p} : bool :=
  match p with
  | EmptyString => true
  | String a p' =>
      match s with
      | EmptyString => false
      | String b s' => bool_decide (a = b) && startsWith s' p'
      end
  end.

(** [s.slice(n)] for [0 <= n] *)
Fixpoint slice (s : string) (n : nat) {struct n} : string :=
  match n with
  | 0 => s
  | S n' =>
      match s with
      | EmptyString => EmptyString
      | String _ s' => slice s' n'
      end
  end.

(** [s.split(sep)] for a one-character separator; the result is never empty,
    [''.split(',')] is [['']]. *)
Fixpoint split (sep : ascii) (s : string) : list string :=
  match s with
  | EmptyString => [EmptyString]
  | String c s' =>
      if bool_decide (c = sep) then EmptyString :: split sep s'
      else match split sep s' with
           | w :: ws => String c w :: ws
           | [] => [String c EmptyString]
           end
  end.

(** The white space [trim] strips: the code points of the ECMAScript
    productions WhiteSpace and LineTerminator, each as the bytes of its
    UTF-8 encoding. *)
Definition whiteSpace : list (list N) :=
  [ [9]; [10]; [11]; [12]; [13];        (* U+0009 .. U+000D *)
    [32];                               (* U+0020 *)
    [194; 160];                         (* U+00A0 *)
    [225; 154; 128];                    (* U+1680 *)
    [226; 128; 128]; [226; 128; 129]; [226; 128; 130]; [226; 128; 131];
    [226; 128; 132]; [226; 128; 133]; [226; 128; 134]; [226; 128; 135];
    [226; 128; 136]; [226; 128; 137]; [226; 128; 138];   (* U+2000 .. U+200A *)
    [226; 128; 168]; [226; 128; 169];   (* U+2028, U+2029 *)
    [226; 128; 175];                    (* U+202F *)
    [226; 129; 159];                    (* U+205F *)
    [227; 128; 128];                    (* U+3000 *)
    [239; 187; 191] ]%N.                (* U+FEFF *)

Definition isWhiteSpace (bytes : list N) : bool :=
  bool_decide (bytes ∈ whiteSpace).

(** Drop the leading characters that [ws] recognises; a character has one,
    two or three bytes. *)
Fixpoint trimWith (ws : list N → bool) (s : string) : string :=
  match s with
  | EmptyString => EmptyString
  | String a s1 =>
      if ws [N_of_ascii a] then trimWith ws s1
      else
        match s1 with
        | EmptyString => s
        | String b s2 =>
            if ws [N_of_ascii a; N_of_ascii b] then trimWith ws s2
            else
              match s2 with
              | EmptyString => s
              | String c s3 =>
                  if ws [N_of_ascii a; N_of_ascii b; N_of_ascii c]
                  then trimWith ws s3
                  else s
              end
        end
  end.

(** [s.trimStart()] *)
Definition trimStart (s : string) : string := trimWith isWhiteSpace s.

(** [s.trimEnd()]: the same from the end, where the bytes of a character come
    last byte first. *)
Definition trimEnd (s : string) : string :=
  String.rev (trimWith (λ bytes, isWhiteSpace (reverse bytes)) (String.rev s)).

(** [s.trim()] *)
Definition trim (s : string) : string := trimEnd (trimStart s).

(** A string starts with a character that [ws] recognises. *)
Definition startsWithSpace (ws : list N → bool) (s : string) : bool :=
  match s with
  | EmptyString => false
  | String a s1 =>
      ws [N_of_ascii a] ||
      match s1 with
      | EmptyString => false
      | String b s2 =>
          ws [N_of_ascii a; N_of_ascii b] ||
          match s2 with
          | EmptyString => false
          | String c _ => ws [N_of_ascii a; N_of_ascii b; N_of_ascii c]
          end
      end
  end.

(** Template-literal rendering of a non-negative integer. *)
Definition number_to_string (n : N) : string :=
  NilEmpty.string_of_uint (N.to_uint n).

Definition newline : string := String "010"%char EmptyString.

(** ** The log *)

Inductive log_entry :=
| SetFailed (message : string)
| WarnTokenRecommended
| WarnRepoMismatch (app_url : string) (current_url : any)
| InfoProcessEvent (eventName : string)
| InfoSourceOptions (options : obj).

(** A computation that returns a value and the log lines it wrote. *)
Definition Action (A : Type) : Type := A * list log_entry.

Definition ret {A} (a : A) : Action A := (a, []).

Definition bind {A B} (m : Action A) (k : A → Action B) : Action B :=
  let (b, l) := k (fst m) in (b, snd m ++ l).

Definition emit (e : log_entry) : Action unit := ((), [e]).

Notation "x <- m ;; k" := (bind m (λ x, k))
  (at level 100, m at next level, right associativity).
Notation "m ;; k" := (bind m (λ _, k))
  (at level 100, right associativity).

Definition returned {A} (m : Action A) : A := fst m.
Definition logged {A} (m : Action A) : list log_entry := snd m.

Definition is_failure (e : log_entry) : bool :=
  match e with
  | SetFailed _ => true
  | _ => false
  end.

(** The run was marked as failed. *)
Definition failed {A} (m : Action A) : bool := existsb is_failure (logged m).

(** ** The event context and the action inputs *)

(** A repository descriptor of the webhook payload. *)
Record Repository := {
  repo_private : bool;
  repo_ssh_url : option string;
  repo_clone_url : option string;
  repo_owner_login : option string
}.

(** A commit of a push payload. *)
Record Commit := {
  commit_message : string;
  commit_added : list string;
  commit_removed : list string;
  commit_modified : list string
}.

(** [pr.head] and [pr.base]. *)
Record PullRequestSide := {
  side_sha : option string;
  side_ref : option string;
  side_repo : option Repository
}.

Record PullRequest := {
  pr_number : N;
  pr_mergeable : option bool;          (* [None] is [null] *)
  pr_title : string;
  pr_body : option string;
  pr_head : option PullRequestSide;
  pr_base : option PullRequestSide;
  pr_user_login : option string;
  pr_diff_url : option string;
  pr_action : option string;
  pr_draft : bool
}.

(** [github.context.payload] *)
Record Payload := {
  deleted : bool;
  commits : option (list Commit);
  head_commit : option Commit;
  repository : option Repository;
  pull_request : option PullRequest
}.

(** [github.context] *)
Record Context := {
  eventName : string;
  ref : string;
  sha : string;
  payload : option Payload
}.

(** What [core.getInput] and [core.getBooleanInput] return for each input;
    an input that is not given reads as the empty string. *)
Record Inputs := {
  bitrise_workflow : string;
  bitrise_pipeline : string;
  listen : bool;
  branch_override : string;
  commit_override : string;
  skip_git_status_report : bool;
  env_vars_for_bitrise : string
}.

Record BitriseAppDetails := {
  repo_url : option string
}.

(** [appDetails?.repo_url] when it is truthy. *)
Definition app_repo_url (appDetails : option BitriseAppDetails) : option string :=
  match appDetails with
  | Some d =>
      match repo_url d with
      | Some u => if truthy_string u then Some u else None
      | None => None
      end
  | None => None
  end.

(** [Object.entries(process.env)]: the entries in encounter order. *)
Abbreviation ProcessEnv := (list (string * option string)).

(** ** Helpers of the resolver *)

Definition getRepositoryURL (repoInfoModel : option Repository) : option string :=
  match repoInfoModel with
  | Some r => if repo_private r then repo_ssh_url r else repo_clone_url r
  | None => None
  end.

Definition getPrReadyState (pr : PullRequest) : string :=
  if bool_decide (pr_action pr = Some "ready_for_review") then
    "converted_to_ready_for_review"
  else if pr_draft pr then "draft"
  else "ready_for_review".

(** The allow-list: the input split at commas, trimmed, empty names dropped. *)
Definition envPassThrough (input : string) : list string :=
  filter (λ i, i ≠ EmptyString) (trim <$> split "," input).

Definition prepareEnvironmentVariables (input : string) (env : ProcessEnv)
  : list BitriseEnvironment :=
  (λ e : string * option string,
     {| mapped_to := fst e; value := default EmptyString (snd e);
        is_expand := false |})
  <$> filter (λ e : string * option string, fst e ∈ envPassThrough input) env.

(** ** The resolver *)

Section Resolver.

(** [urlsReferTheSameGitHubRepo] lives in [../utils], outside this file; the
    resolver is parametric in it.  Its second argument may be [undefined]. *)
Variable urlsReferTheSameGitHubRepo : string → any → bool.

Definition commitPathsOf (commit : Commit) : CommitPathsFilter :=
  {| added := commit_added commit;
     removed := commit_removed commit;
     modified := commit_modified commit |}.

Definition transformBasicEvent (ctx : Context) (payload : Payload) : Action obj :=
  if deleted payload then
    emit (SetFailed "this is a 'Deleted' event, no build can be started") ;;
    ret ∅
  else
    let commits :=
      match commits payload with
      | Some cs => cs
      | None => match head_commit payload with Some c => [c] | None => [] end
      end in
    let ref := ref ctx in
    let '(options, commitMessages, commitPaths) :=
      if startsWith ref "refs/heads/" then
        (({["branch" := JStr (slice ref 11)]} : obj),
         commit_message <$> commits, commitPathsOf <$> commits)
      else if startsWith ref "refs/tags/" then
        (({["tag" := JStr (slice ref 10)]} : obj), [], [])
      else ((∅ : obj), [], []) in
    ret (<["commit_hash" := JStr (sha ctx)]> $
         <["commit_message" := of_opt (commit_message <$> head_commit payload)]> $
         <["commit_messages" := JMessages commitMessages]> $
         <["commit_paths" := JPaths commitPaths]> $
         <["base_repository_url" := of_opt (getRepositoryURL (repository payload))]> $
         options).

Definition transformPullRequestEvent (pr : PullRequest) : Action obj :=
  let prNumber := pr_number pr in
  let options0 : obj :=
    {["pull_request_unverified_merge_branch" :=
        JStr ("pull/" +:+ number_to_string prNumber +:+ "/merge")]} in
  let mergeable := pr_mergeable pr in
  let mergeRefUpToDate := bool_decide (mergeable ≠ None) in
  let options : obj :=
    if mergeRefUpToDate then
      <["pull_request_merge_branch" :=
          get options0 "pull_request_unverified_merge_branch"]> options0
    else options0 in
  if mergeRefUpToDate && bool_decide (mergeable = Some false) then
    emit (SetFailed "Pull Request is not mergeable") ;;
    ret ∅
  else
    let commitMsg :=
      match pr_body pr with
      | Some body =>
          if truthy_string body
          then pr_title pr +:+ newline +:+ newline +:+ body
          else pr_title pr
      | None => pr_title pr
      end in
    let head_repo := pr_head pr ≫= side_repo in
    let base_repo := pr_base pr ≫= side_repo in
    ret (<["commit_hash" := of_opt (pr_head pr ≫= side_sha)]> $
         <["commit_message" := JStr commitMsg]> $
         <["branch" := of_opt (pr_head pr ≫= side_ref)]> $
         <["branch_repo_owner" := of_opt (head_repo ≫= repo_owner_login)]> $
         <["branch_dest" := of_opt (pr_base pr ≫= side_ref)]> $
         <["branch_dest_repo_owner" := of_opt (base_repo ≫= repo_owner_login)]> $
         <["pull_request_id" := JNum prNumber]> $
         <["head_repository_url" := of_opt (getRepositoryURL head_repo)]> $
         <["pull_request_repository_url" := of_opt (getRepositoryURL head_repo)]> $
         <["base_repository_url" := of_opt (getRepositoryURL base_repo)]> $
         <["pull_request_head_branch" :=
             JStr ("pull/" +:+ number_to_string prNumber +:+ "/head")]> $
         <["pull_request_author" := of_opt (pr_user_login pr)]> $
         <["diff_url" := of_opt (pr_diff_url pr)]> $
         <["pull_request_ready_state" := JStr (getPrReadyState pr)]> $
         options).

(** The override-derived options before the collapse, lines 195-216. *)
Definition parseOverride (appDetails : option BitriseAppDetails)
    (branchOverride : string) : obj :=
  let branchOptions : obj :=
    match app_repo_url appDetails with
    | Some u => {["base_repository_url" := JStr u]}
    | None => ∅
    end in
  if startsWith branchOverride "refs/heads/" then
    <["branch" := JStr (slice branchOverride 11)]> branchOptions
  else if startsWith branchOverride "refs/tags/" then
    <["tag" := JStr (slice branchOverride 10)]> branchOptions
  else if truthy_string branchOverride then
    <["branch" := JStr branchOverride]> branchOptions
  else branchOptions.

(** The condition of lines 217-222: the override names the branch or the tag
    of the default options. *)
Definition sameRefAsDefault (branchOptions : obj)
    (defaultBranchOptions : option obj) (branchOverride : string) : bool :=
  truthy_string branchOverride &&
  ((truthy (get branchOptions "branch") &&
    strict_eq (get branchOptions "branch") (get_opt defaultBranchOptions "branch"))
   || (truthy (get branchOptions "tag") &&
       strict_eq (get branchOptions "tag") (get_opt defaultBranchOptions "tag"))).

(** Lines 217-237: adopt the default options when the override names their
    branch or tag and the app's repository is the event's. *)
Definition collapseToDefault (appDetails : option BitriseAppDetails)
    (defaultBranchOptions : option obj) (branchOverride : string)
    (branchOptions : obj) : obj :=
  if sameRefAsDefault branchOptions defaultBranchOptions branchOverride then
    match app_repo_url appDetails with
    | Some u =>
        if urlsReferTheSameGitHubRepo u
             (get_opt defaultBranchOptions "base_repository_url")
        then default ∅ defaultBranchOptions ∪ branchOptions
        else branchOptions
    | None => branchOptions
    end
  else branchOptions.

(** Lines 238-245: a commit override that is not the default commit keeps
    four fields only. *)
Definition narrowToCommit (defaultBranchOptions : option obj)
    (commitOverride : string) (branchOptions : obj) : obj :=
  if truthy_string commitOverride &&
     negb (strict_eq (JStr commitOverride)
                     (get_opt defaultBranchOptions "commit_hash"))
  then
    <["branch" := get branchOptions "branch"]> $
    <["tag" := get branchOptions "tag"]> $
    <["commit_hash" := JStr commitOverride]> $
    <["base_repository_url" := get branchOptions "base_repository_url"]> $
    ∅
  else branchOptions.

Definition processOverrides (appDetails : option BitriseAppDetails)
    (defaultBranchOptions : option obj)
    (branchOverride commitOverride : string) : Action obj :=
  (if appDetails is None then emit WarnTokenRecommended else ret ()) ;;
  let branchOptions := parseOverride appDetails branchOverride in
  let branchOptions :=
    collapseToDefault appDetails defaultBranchOptions branchOverride
      branchOptions in
  let branchOptions :=
    narrowToCommit defaultBranchOptions commitOverride branchOptions in
  ret branchOptions.

Definition draftEnvironment : BitriseEnvironment :=
  {| mapped_to := "GITHUB_PR_IS_DRAFT"; value := "true"; is_expand := false |}.

(** Lines 94-100: the returned object. *)
Definition finalFields (inputs : Inputs)
    (environments : list BitriseEnvironment) (options : obj) : obj :=
  <["workflow_id" := or_undefined (bitrise_workflow inputs)]> $
  <["pipeline_id" := or_undefined (bitrise_pipeline inputs)]> $
  <["skip_git_status_report" := JBool (skip_git_status_report inputs)]> $
  <["environments" := JEnvs environments]> $
  options.

(** Lines 74-100: the cross-check warning, the summary line and the final
    object. *)
Definition finish (inputs : Inputs) (appDetails : option BitriseAppDetails)
    (options : obj) (environments : list BitriseEnvironment) : Action obj :=
  (match app_repo_url appDetails with
   | Some u =>
       if negb (urlsReferTheSameGitHubRepo u (get options "base_repository_url"))
       then emit (WarnRepoMismatch u (get options "base_repository_url"))
       else ret ()
   | None => ret ()
   end) ;;
  emit (InfoSourceOptions options) ;;
  ret (finalFields inputs environments options).

(** Lines 21-36: the checks on the workflow and pipeline inputs, with the
    message of the first one that fails. *)
Definition validateSelection (inputs : Inputs) : option string :=
  let workflow := bitrise_workflow inputs in
  let pipeline := bitrise_pipeline inputs in
  if negb (truthy_string workflow) && negb (truthy_string pipeline) then
    Some "Either bitrise-workflow or bitrise-pipeline must be provided"
  else if truthy_string workflow && truthy_string pipeline then
    Some "Cannot specify both bitrise-workflow and bitrise-pipeline"
  else if truthy_string pipeline && listen inputs then
    Some "Listen option is not supported with bitrise-pipeline"
  else None.

(** Lines 44-46: the default options, [null] without a payload. *)
Definition defaultOptions (ctx : Context) : Action (option obj) :=
  match payload ctx with
  | Some p => (o <- transformBasicEvent ctx p ;; ret (Some o))
  | None => ret None
  end.

(** Lines 38-100, once the inputs passed the checks. *)
Definition resolveOptions (inputs : Inputs) (ctx : Context)
    (env : ProcessEnv) (appDetails : option BitriseAppDetails) : Action obj :=
  emit (InfoProcessEvent (eventName ctx)) ;;
  let environments :=
    prepareEnvironmentVariables (env_vars_for_bitrise inputs) env in
  defaultBranchOptions <- defaultOptions ctx ;;
  let branchOverride := branch_override inputs in
  let commitOverride := commit_override inputs in
  if truthy_string branchOverride || truthy_string commitOverride then
    options <- processOverrides appDetails defaultBranchOptions
                 branchOverride commitOverride ;;
    finish inputs appDetails options environments
  else
    match payload ctx ≫= pull_request with
    | Some pr =>
        options <- transformPullRequestEvent pr ;;
        let environments :=
          if pr_draft pr then environments ++ [draftEnvironment]
          else environments in
        finish inputs appDetails options environments
    | None =>
        match defaultBranchOptions with
        | None =>
            emit (SetFailed "No payload found in the context.") ;;
            ret ∅
        | Some options => finish inputs appDetails options environments
        end
    end.

Definition createBuildOptions (inputs : Inputs) (ctx : Context)
    (env : ProcessEnv) (appDetails : option BitriseAppDetails) : Action obj :=
  match validateSelection inputs with
  | Some message => emit (SetFailed message) ;; ret ∅
  | None => resolveOptions inputs ctx env appDetails
  end.

End Resolver.

(** A concrete comparison for running the resolver on examples: two URLs
    are taken to name the same repository when they are the same string.
    Every theorem below holds for any comparison. *)
Definition sameUrl (a : string) (b : any) : bool := strict_eq (JStr a) b.

#[global] Instance CommitPathsFilter_eq_dec : EqDecision CommitPathsFilter.
Proof. solve_decision. Defined.

#[global] Instance BitriseEnvironment_eq_dec : EqDecision BitriseEnvironment.
Proof. solve_decision. Defined.

#[global] Instance any_eq_dec : EqDecision any.
Proof. solve_decision. Defined.

(** The object of lines 132-139 over the ref-specific [options]. *)
Definition basicFields (ctx : Context) (p : Payload)
    (messages : list string) (paths : list CommitPathsFilter) (options : obj) : obj :=
  <["commit_hash" := JStr (sha ctx)]> $
  <["commit_message" := of_opt (commit_message <$> head_commit p)]> $
  <["commit_messages" := JMessages messages]> $
  <["commit_paths" := JPaths paths]> $
  <["base_repository_url" := of_opt (getRepositoryURL (repository p))]> $
  options.

(** The commits the branch case aggregates: the pushed list, or the head
    commit alone when the list is missing. *)
Definition pushedCommits (p : Payload) : list Commit :=
  match commits p with
  | Some cs => cs
  | None => match head_commit p with Some c => [c] | None => [] end
  end.

(** The merge ref of a pull request, [pull/<number>/merge]. *)
Definition mergeRef (pr : PullRequest) : string :=
  "pull/" +:+ number_to_string (pr_number pr) +:+ "/merge".

(** The fields an options object of the base-event transform or of the
    override transform can hold. *)
Definition sourceFields : gset string :=
  {[ "base_repository_url"; "branch"; "tag"; "commit_hash"; "commit_message";
     "commit_messages"; "commit_paths" ]}.

(** The fields only the pull-request transform writes. *)
Definition pullRequestFields : list string :=
  [ "pull_request_unverified_merge_branch"; "pull_request_merge_branch";
    "branch_repo_owner"; "branch_dest"; "branch_dest_repo_owner";
    "pull_request_id"; "head_repository_url"; "pull_request_repository_url";
    "pull_request_head_branch"; "pull_request_author"; "diff_url";
    "pull_request_ready_state" ].

(** [branch] and [tag] are not both set. *)
Definition exclusive (o : obj) : Prop :=
  is_set o "branch" && is_set o "tag" = false.

(** ** Example events and inputs *)

Definition exampleRepository : Repository :=
  {| repo_private := false;
     repo_ssh_url := Some "git@github.com:octo/app.git";
     repo_clone_url := Some "https://github.com/octo/app.git";
     repo_owner_login := Some "octo" |}.

Definition exampleCommit : Commit :=
  {| commit_message := "Fix the build";
     commit_added := ["ci.yml"]; commit_removed := [];
     commit_modified := ["README.md"] |}.

Definition pushPayload : Payload :=
  {| deleted := false; commits := Some [exampleCommit];
     head_commit := Some exampleCommit;
     repository := Some exampleRepository; pull_request := None |}.

(** A push to [main]. *)
Definition pushToMain : Context :=
  {| eventName := "push"; ref := "refs/heads/main"; sha := "4f2a9c1";
     payload := Some pushPayload |}.

(** A push of the tag [v1.0]; tag pushes carry no commit list. *)
Definition tagPayload : Payload :=
  {| deleted := false; commits := None; head_commit := None;
     repository := Some exampleRepository; pull_request := None |}.

Definition pushOfTag : Context :=
  {| eventName := "push"; ref := "refs/tags/v1.0"; sha := "4f2a9c1";
     payload := Some tagPayload |}.

(** The push that deletes the branch [main]. *)
Definition deletedPayload : Payload :=
  {| deleted := true; commits := Some []; head_commit := None;
     repository := Some exampleRepository; pull_request := None |}.

Definition deletionOfMain : Context :=
  {| eventName := "push"; ref := "refs/heads/main";
     sha := "0000000"; payload := Some deletedPayload |}.

Definition exampleSide (branch : string) : PullRequestSide :=
  {| side_sha := Some "9e8d7c6"; side_ref := Some branch;
     side_repo := Some exampleRepository |}.

Definition examplePullRequest (mergeable : option bool) : PullRequest :=
  {| pr_number := 42; pr_mergeable := mergeable;
     pr_title := "Add the cache"; pr_body := None;
     pr_head := Some (exampleSide "feature");
     pr_base := Some (exampleSide "main");
     pr_user_login := Some "octo"; pr_diff_url := None;
     pr_action := None; pr_draft := true |}.

Definition pullRequestEvent (mergeable : option bool) : Context :=
  {| eventName := "pull_request"; ref := "refs/pull/42/merge"; sha := "1b2c3d4";
     payload :=
       Some {| deleted := false; commits := None; head_commit := None;
               repository := Some exampleRepository;
               pull_request := Some (examplePullRequest mergeable) |} |}.

(** A context without payload. *)
Definition noPayload : Context :=
  {| eventName := "schedule"; ref := "refs/heads/main"; sha := "4f2a9c1";
     payload := None |}.

(** Inputs that select the workflow [primary] and nothing else. *)
Definition workflowOnly : Inputs :=
  {| bitrise_workflow := "primary"; bitrise_pipeline := EmptyString;
     listen := false; branch_override := EmptyString;
     commit_override := EmptyString; skip_git_status_report := false;
     env_vars_for_bitrise := EmptyString |}.

Definition withOverrides (branch commit : string) : Inputs :=
  {| bitrise_workflow := "primary"; bitrise_pipeline := EmptyString;
     listen := false; branch_override := branch;
     commit_override := commit; skip_git_status_report := false;
     env_vars_for_bitrise := EmptyString |}.

(** Inputs with the given workflow and pipeline and nothing else. *)
Definition selecting (workflow pipeline : string) : Inputs :=
  {| bitrise_workflow := workflow; bitrise_pipeline := pipeline;
     listen := false; branch_override := EmptyString;
     commit_override := EmptyString; skip_git_status_report := false;
     env_vars_for_bitrise := EmptyString |}.

Definition exampleApp : option BitriseAppDetails :=
  Some {| repo_url := Some "https://github.com/octo/app.git" |}.

Definition exampleEnv : ProcessEnv := [("A", Some "1"); ("B", Some "2")].

(** The object of lines 165-181 over the merge-branch [options]. *)
Definition pullRequestObject (pr : PullRequest) (options : obj) : obj :=
  <["commit_hash" := of_opt (pr_head pr ≫= side_sha)]> $
  <["commit_message" :=
      JStr match pr_body pr with
           | Some body =>
               if truthy_string body
               then pr_title pr +:+ newline +:+ newline +:+ body
               else pr_title pr
           | None => pr_title pr
           end]> $
  <["branch" := of_opt (pr_head pr ≫= side_ref)]> $
  <["branch_repo_owner" := of_opt ((pr_head pr ≫= side_repo) ≫= repo_owner_login)]> $
  <["branch_dest" := of_opt (pr_base pr ≫= side_ref)]> $
  <["branch_dest_repo_owner" :=
      of_opt ((pr_base pr ≫= side_repo) ≫= repo_owner_login)]> $
  <["pull_request_id" := JNum (pr_number pr)]> $
  <["head_repository_url" := of_opt (getRepositoryURL (pr_head pr ≫= side_repo))]> $
  <["pull_request_repository_url" :=
      of_opt (getRepositoryURL (pr_head pr ≫= side_repo))]> $
  <["base_repository_url" := of_opt (getRepositoryURL (pr_base pr ≫= side_repo))]> $
  <["pull_request_head_branch" :=
      JStr ("pull/" +:+ number_to_string (pr_number pr) +:+ "/head")]> $
  <["pull_request_author" := of_opt (pr_user_login pr)]> $
  <["diff_url" := of_opt (pr_diff_url pr)]> $
  <["pull_request_ready_state" := JStr (getPrReadyState pr)]> $
  options.

(** The same inputs with no branch override and no commit override. *)
Definition withoutOverrides (inputs : Inputs) : Inputs :=
  {| bitrise_workflow := bitrise_workflow inputs;
     bitrise_pipeline := bitrise_pipeline inputs;
     listen := listen inputs;
     branch_override := EmptyString;
     commit_override := EmptyString;
     skip_git_status_report := skip_git_status_report inputs;
     env_vars_for_bitrise := env_vars_for_bitrise inputs |}.

(** Inputs that select the pipeline [deploy] and ask to listen. *)
Definition pipelineListening : Inputs :=
  {| bitrise_workflow := EmptyString; bitrise_pipeline := "deploy";
     listen := true; branch_override := EmptyString;
     commit_override := EmptyString; skip_git_status_report := false;
     env_vars_for_bitrise := EmptyString |}.

(** Inputs that pass the variables [A] and [B] through. *)
Definition passingAB : Inputs :=
  {| bitrise_workflow := "primary"; bitrise_pipeline := EmptyString;
     listen := false; branch_override := EmptyString;
     commit_override := EmptyString; skip_git_status_report := false;
     env_vars_for_bitrise := "A, B" |}.

(** * Properties *)

(** ** The log monad *)

Lemma returned_bind {A B} (m : Action A) (k : A → Action B) :
  returned (bind m k) = returned (k (returned m)).
Proof. unfold returned, bind. by destruct (k (m.1)). Qed.

Lemma logged_bind {A B} (m : Action A) (k : A → Action B) :
  logged (bind m k) = logged m ++ logged (k (returned m)).
Proof. unfold logged, returned, bind. by destruct (k (m.1)). Qed.

Lemma failed_bind {A B} (m : Action A) (k : A → Action B) :
  failed (bind m k) = failed m || failed (k (returned m)).
Proof. unfold failed. by rewrite logged_bind, existsb_app. Qed.

(** ** Strings *)

Lemma startsWith_app (p r : string) : startsWith (p +:+ r) p = true.
Proof.
  induction p as [|a p IH]; simpl; [done|].
  by rewrite bool_decide_eq_true_2, IH.
Qed.

Lemma slice_app (p r : string) : slice (p +:+ r) (String.length p) = r.
Proof. induction p as [|a p IH]; [reflexivity | exact IH]. Qed.

Lemma truthy_string_true (s : string) : truthy_string s = true ↔ s ≠ EmptyString.
Proof. destruct s; simpl; split; congruence. Qed.

Lemma strict_eq_JStr (s : string) (v : any) :
  strict_eq (JStr s) v = bool_decide (JStr s = v).
Proof.
  destruct v; simpl; try done.
  apply bool_decide_ext. split; congruence.
Qed.

(** ** Reading fields *)

Lemma is_set_get (o : obj) (k : string) :
  is_set o k = bool_decide (get o k ≠ undefined).
Proof.
  unfold is_set, get. destruct (o !! k) as [[]|]; simpl; done.
Qed.

Lemma is_set_insert_ne (o : obj) (k k' : string) (v : any) :
  k ≠ k' → is_set (<[k:=v]> o) k' = is_set o k'.
Proof. intros ?. unfold is_set. by rewrite lookup_insert_ne. Qed.

Lemma is_set_insert_eq (o : obj) (k : string) (v : any) :
  is_set (<[k:=v]> o) k = bool_decide (v ≠ undefined).
Proof. unfold is_set. rewrite lookup_insert_eq. by destruct v. Qed.

Lemma get_insert_eq (o : obj) (k : string) (v : any) : get (<[k:=v]> o) k = v.
Proof. unfold get. by rewrite lookup_insert_eq. Qed.

(** ** The base-event transform *)

Lemma transformBasicEvent_failed ctx p :
  failed (transformBasicEvent ctx p) = deleted p.
Proof.
  unfold transformBasicEvent. destruct (deleted p); [done|].
  by repeat case_match.
Qed.

Lemma transformBasicEvent_deleted ctx p :
  deleted p = true → returned (transformBasicEvent ctx p) = ∅.
Proof. unfold transformBasicEvent. by intros ->. Qed.

Lemma transformBasicEvent_branch ctx p :
  deleted p = false → startsWith (ref ctx) "refs/heads/" = true →
  returned (transformBasicEvent ctx p) =
    basicFields ctx p (commit_message <$> pushedCommits p)
      (commitPathsOf <$> pushedCommits p)
      {["branch" := JStr (slice (ref ctx) 11)]}.
Proof. unfold transformBasicEvent. by intros -> ->. Qed.

Lemma transformBasicEvent_tag ctx p :
  deleted p = false → startsWith (ref ctx) "refs/heads/" = false →
  startsWith (ref ctx) "refs/tags/" = true →
  returned (transformBasicEvent ctx p) =
    basicFields ctx p [] [] {["tag" := JStr (slice (ref ctx) 10)]}.
Proof. unfold transformBasicEvent. by intros -> -> ->. Qed.

Lemma transformBasicEvent_other ctx p :
  deleted p = false → startsWith (ref ctx) "refs/heads/" = false →
  startsWith (ref ctx) "refs/tags/" = false →
  returned (transformBasicEvent ctx p) = basicFields ctx p [] [] ∅.
Proof. unfold transformBasicEvent. by intros -> -> ->. Qed.

(** The three shapes of a result of the base-event transform that is not
    the empty object of a deleted ref. *)
Lemma transformBasicEvent_shape ctx p :
  deleted p = false →
  ∃ messages paths options,
    returned (transformBasicEvent ctx p) = basicFields ctx p messages paths options ∧
    ((startsWith (ref ctx) "refs/heads/" = true ∧
      options = {["branch" := JStr (slice (ref ctx) 11)]}) ∨
     (startsWith (ref ctx) "refs/heads/" = false ∧ messages = [] ∧ paths = [] ∧
      (options = {["tag" := JStr (slice (ref ctx) 10)]} ∨ options = ∅))).
Proof.
  intros Hd.
  destruct (startsWith (ref ctx) "refs/heads/") eqn:Hb.
  - eexists _, _, _. split; [by apply transformBasicEvent_branch|]. by left.
  - destruct (startsWith (ref ctx) "refs/tags/") eqn:Ht.
    + eexists _, _, _. split; [by apply transformBasicEvent_tag|].
      right. eauto.
    + eexists _, _, _. split; [by apply transformBasicEvent_other|].
      right. eauto.
Qed.

Lemma basicFields_lookup_branch ctx p ms ps (o : obj) :
  basicFields ctx p ms ps o !! "branch" = o !! "branch".
Proof. unfold basicFields. by simplify_map_eq. Qed.

Lemma basicFields_lookup_tag ctx p ms ps (o : obj) :
  basicFields ctx p ms ps o !! "tag" = o !! "tag".
Proof. unfold basicFields. by simplify_map_eq. Qed.

(** C10: a result of the base-event transform that is not an error carries
    [commit_messages] and [commit_paths] as lists whatever the ref is; for a
    ref outside [refs/heads/] (a tag or any other ref) both lists are present
    and empty; [commit_message] is the head commit's message, and is not set
    when the payload has no head commit. *)
Theorem C10_commit_lists_always_present (ctx : Context) (p : Payload) :
  failed (transformBasicEvent ctx p) = false →
  let o := returned (transformBasicEvent ctx p) in
  (∃ messages paths,
      o !! "commit_messages" = Some (JMessages messages) ∧
      o !! "commit_paths" = Some (JPaths paths)) ∧
  (startsWith (ref ctx) "refs/heads/" = false →
      o !! "commit_messages" = Some (JMessages []) ∧
      o !! "commit_paths" = Some (JPaths [])) ∧
  match head_commit p with
  | Some c => o !! "commit_message" = Some (JStr (commit_message c))
  | None => is_set o "commit_message" = false
  end.
Proof.
  rewrite transformBasicEvent_failed. intros Hd o.
  destruct (transformBasicEvent_shape ctx p Hd) as (ms & ps & opts & Ho & Hcase).
  subst o. rewrite Ho. unfold basicFields, is_set. split_and!.
  - exists ms, ps. by simplify_map_eq.
  - intros Hb. destruct Hcase as [[Hb' _]|(_ & -> & -> & _)]; [congruence|].
    by simplify_map_eq.
  - destruct (head_commit p); by simplify_map_eq.
Qed.

(** ** The final object and the paths of the resolver *)

Section ResolverFacts.

Variable urls : string → any → bool.

Lemma finish_returned inputs app o envs :
  returned (finish urls inputs app o envs) = finalFields inputs envs o.
Proof. unfold finish. by rewrite !returned_bind. Qed.

Lemma finish_failed inputs app o envs :
  failed (finish urls inputs app o envs) = false.
Proof.
  unfold finish. rewrite !failed_bind.
  destruct (app_repo_url app); [|done].
  by destruct (negb _).
Qed.

Lemma finalFields_lookup inputs envs (o : obj) (k : string) :
  k ≠ "workflow_id" → k ≠ "pipeline_id" → k ≠ "skip_git_status_report" →
  k ≠ "environments" →
  finalFields inputs envs o !! k = o !! k.
Proof. intros. unfold finalFields. by rewrite !lookup_insert_ne. Qed.

Lemma finalFields_environments inputs envs (o : obj) :
  finalFields inputs envs o !! "environments" = Some (JEnvs envs).
Proof. unfold finalFields. by simplify_map_eq. Qed.

Lemma createBuildOptions_invalid inputs ctx env app message :
  validateSelection inputs = Some message →
  createBuildOptions urls inputs ctx env app = (∅, [SetFailed message]).
Proof. unfold createBuildOptions. by intros ->. Qed.

Lemma createBuildOptions_valid inputs ctx env app :
  validateSelection inputs = None →
  createBuildOptions urls inputs ctx env app = resolveOptions urls inputs ctx env app.
Proof. unfold createBuildOptions. by intros ->. Qed.

Lemma createBuildOptions_not_failed inputs ctx env app :
  failed (createBuildOptions urls inputs ctx env app) = false →
  validateSelection inputs = None.
Proof.
  destruct (validateSelection inputs) as [m|] eqn:Hv; [|done].
  by rewrite (createBuildOptions_invalid _ _ _ _ _ Hv).
Qed.

(** No override: the push path. *)
Lemma resolveOptions_basic inputs ctx env app p :
  payload ctx = Some p → pull_request p = None →
  branch_override inputs = EmptyString → commit_override inputs = EmptyString →
  returned (resolveOptions urls inputs ctx env app) =
    finalFields inputs (prepareEnvironmentVariables (env_vars_for_bitrise inputs) env)
      (returned (transformBasicEvent ctx p)) ∧
  failed (resolveOptions urls inputs ctx env app) = deleted p.
Proof.
  intros Hp Hpr Hb Hc. unfold resolveOptions, defaultOptions.
  rewrite Hp, Hb, Hc. simpl. rewrite Hpr.
  rewrite !returned_bind, !failed_bind, !returned_bind. simpl.
  split; [done|].
  rewrite finish_failed, transformBasicEvent_failed. simpl.
  by rewrite !orb_false_r.
Qed.

(** On a deleted ref the push path goes on with the empty object. *)
Lemma resolveOptions_deleted inputs ctx env app p :
  payload ctx = Some p → pull_request p = None → deleted p = true →
  branch_override inputs = EmptyString → commit_override inputs = EmptyString →
  returned (resolveOptions urls inputs ctx env app) =
    finalFields inputs (prepareEnvironmentVariables (env_vars_for_bitrise inputs) env) ∅ ∧
  failed (resolveOptions urls inputs ctx env app) = true.
Proof.
  intros Hp Hpr Hd Hb Hc.
  destruct (resolveOptions_basic inputs ctx env app p Hp Hpr Hb Hc) as [-> ->].
  by rewrite transformBasicEvent_deleted.
Qed.

(** No override: the pull-request path. *)
Lemma resolveOptions_pull_request inputs ctx env app p pr :
  payload ctx = Some p → pull_request p = Some pr →
  branch_override inputs = EmptyString → commit_override inputs = EmptyString →
  returned (resolveOptions urls inputs ctx env app) =
    finalFields inputs
      (if pr_draft pr
       then prepareEnvironmentVariables (env_vars_for_bitrise inputs) env
              ++ [draftEnvironment]
       else prepareEnvironmentVariables (env_vars_for_bitrise inputs) env)
      (returned (transformPullRequestEvent pr)) ∧
  (∀ e, e ∈ logged (transformPullRequestEvent pr) →
        e ∈ logged (resolveOptions urls inputs ctx env app)).
Proof.
  intros Hp Hpr Hb Hc. unfold resolveOptions, defaultOptions.
  rewrite Hp, Hb, Hc. simpl. rewrite Hpr.
  split.
  - by rewrite !returned_bind, finish_returned.
  - intros e He. rewrite !logged_bind, ?returned_bind.
    rewrite !elem_of_app. auto.
Qed.

(** An override: the override path, whatever the event is. *)
Lemma resolveOptions_override inputs ctx env app :
  truthy_string (branch_override inputs) || truthy_string (commit_override inputs) = true →
  returned (resolveOptions urls inputs ctx env app) =
    finalFields inputs (prepareEnvironmentVariables (env_vars_for_bitrise inputs) env)
      (returned (processOverrides urls app (returned (defaultOptions ctx))
                   (branch_override inputs) (commit_override inputs))).
Proof.
  intros Ho. unfold resolveOptions. rewrite !returned_bind, Ho.
  by rewrite returned_bind, finish_returned.
Qed.


(** C8: on a push event without overrides, a ref [refs/heads/<name>] gives
    [branch = <name>] and no tag, and a ref [refs/tags/<name>] gives
    [tag = <name>] and no branch: [refs/heads/main] gives branch [main],
    [refs/tags/v1.0] gives tag [v1.0]. *)
Theorem C8_ref_namespace_stripped (inputs : Inputs) (ctx : Context)
    (env : ProcessEnv) (app : option BitriseAppDetails) (p : Payload)
    (name : string) :
  payload ctx = Some p → pull_request p = None →
  branch_override inputs = EmptyString → commit_override inputs = EmptyString →
  failed (createBuildOptions urls inputs ctx env app) = false →
  let o := returned (createBuildOptions urls inputs ctx env app) in
  (ref ctx = "refs/heads/" +:+ name →
     o !! "branch" = Some (JStr name) ∧ o !! "tag" = None) ∧
  (ref ctx = "refs/tags/" +:+ name →
     o !! "tag" = Some (JStr name) ∧ o !! "branch" = None).
Proof.
  intros Hp Hpr Hb Hc Hok o. subst o.
  pose proof (createBuildOptions_not_failed _ _ _ _ Hok) as Hv.
  rewrite (createBuildOptions_valid _ _ _ _ Hv) in *.
  destruct (resolveOptions_basic inputs ctx env app p Hp Hpr Hb Hc) as [-> Hf].
  rewrite Hf in Hok.
  rewrite !finalFields_lookup by done.
  split; intros Href.
  - rewrite transformBasicEvent_branch;
      [|done|rewrite Href; apply startsWith_app].
    rewrite basicFields_lookup_branch, basicFields_lookup_tag, Href.
    assert (slice ("refs/heads/" +:+ name) 11 = name) as ->
      by apply (slice_app "refs/heads/").
    by simplify_map_eq.
  - rewrite transformBasicEvent_tag;
      [|done|by rewrite Href|rewrite Href; apply startsWith_app].
    rewrite basicFields_lookup_branch, basicFields_lookup_tag, Href.
    assert (slice ("refs/tags/" +:+ name) 10 = name) as ->
      by apply (slice_app "refs/tags/").
    by simplify_map_eq.
Qed.

End ResolverFacts.

(** ** Workflow and pipeline *)

Section Selection.

Variable urls : string → any → bool.

Lemma validateSelection_None inputs :
  validateSelection inputs = None →
  truthy_string (bitrise_workflow inputs) = negb (truthy_string (bitrise_pipeline inputs)).
Proof.
  unfold validateSelection.
  destruct (truthy_string (bitrise_workflow inputs)),
    (truthy_string (bitrise_pipeline inputs)); simpl; try done.
Qed.

Lemma validateSelection_same inputs :
  truthy_string (bitrise_workflow inputs) = truthy_string (bitrise_pipeline inputs) →
  ∃ message, validateSelection inputs = Some message.
Proof.
  unfold validateSelection. intros ->.
  destruct (truthy_string (bitrise_pipeline inputs)); simpl; eauto.
Qed.

Lemma is_set_or_undefined (o : obj) (k s : string) :
  is_set (<[k := or_undefined s]> o) k = truthy_string s.
Proof.
  rewrite is_set_insert_eq. unfold or_undefined.
  by destruct (truthy_string s).
Qed.

Lemma finalFields_workflow inputs envs o :
  is_set (finalFields inputs envs o) "workflow_id" =
    truthy_string (bitrise_workflow inputs).
Proof. unfold finalFields. apply is_set_or_undefined. Qed.

Lemma finalFields_pipeline inputs envs o :
  is_set (finalFields inputs envs o) "pipeline_id" =
    truthy_string (bitrise_pipeline inputs).
Proof.
  unfold finalFields. rewrite is_set_insert_ne by done.
  apply is_set_or_undefined.
Qed.

(** Every path of the resolver ends in the final object, except the one
    without payload, which fails. *)
Lemma resolveOptions_shape inputs ctx env app :
  (∃ envs o, returned (resolveOptions urls inputs ctx env app) = finalFields inputs envs o) ∨
  (returned (resolveOptions urls inputs ctx env app) = ∅ ∧
   failed (resolveOptions urls inputs ctx env app) = true).
Proof.
  unfold resolveOptions.
  rewrite !returned_bind, !failed_bind, ?returned_bind.
  destruct (truthy_string (branch_override inputs) || _).
  { left. rewrite returned_bind, finish_returned. eauto. }
  destruct (payload ctx ≫= pull_request) as [pr|].
  { left. rewrite returned_bind, finish_returned. eauto. }
  destruct (returned (defaultOptions ctx)) as [o|].
  { left. rewrite finish_returned. eauto. }
  right. split; [done|]. by rewrite !orb_true_r.
Qed.

(** C7: with both a workflow and a pipeline, or with neither, the resolver
    fails at once: it returns the empty object and its log is the failure
    message alone.  Every result of a run that did not fail has exactly one of
    [workflow_id] and [pipeline_id] set. *)
Theorem C7_exactly_one_of_workflow_and_pipeline (inputs : Inputs)
    (ctx : Context) (env : ProcessEnv) (app : option BitriseAppDetails) :
  let r := createBuildOptions urls inputs ctx env app in
  (truthy_string (bitrise_workflow inputs) = truthy_string (bitrise_pipeline inputs) →
     returned r = ∅ ∧ ∃ message, logged r = [SetFailed message]) ∧
  (failed r = false →
     xorb (is_set (returned r) "workflow_id") (is_set (returned r) "pipeline_id") = true).
Proof.
  intros r. subst r. split.
  - intros Hsame. destruct (validateSelection_same _ Hsame) as [m Hm].
    rewrite (createBuildOptions_invalid urls _ ctx env app _ Hm). eauto.
  - intros Hok.
    pose proof (createBuildOptions_not_failed _ _ _ _ _ Hok) as Hv.
    rewrite (createBuildOptions_valid urls _ ctx env app Hv) in *.
    destruct (resolveOptions_shape inputs ctx env app) as [(envs & o & ->)|[_ Hf]];
      [|congruence].
    rewrite finalFields_workflow, finalFields_pipeline.
    rewrite (validateSelection_None _ Hv).
    by destruct (truthy_string (bitrise_pipeline inputs)).
Qed.

End Selection.

(** ** The pull-request transform *)

Lemma transformPullRequestEvent_unmergeable pr :
  pr_mergeable pr = Some false →
  transformPullRequestEvent pr = (∅, [SetFailed "Pull Request is not mergeable"]).
Proof. unfold transformPullRequestEvent. by intros ->. Qed.

Lemma transformPullRequestEvent_merge_branches pr :
  pr_mergeable pr ≠ Some false →
  returned (transformPullRequestEvent pr) !! "pull_request_unverified_merge_branch"
    = Some (JStr (mergeRef pr)) ∧
  returned (transformPullRequestEvent pr) !! "pull_request_merge_branch"
    = (if pr_mergeable pr is Some _ then Some (JStr (mergeRef pr)) else None).
Proof.
  intros Hm. unfold transformPullRequestEvent, mergeRef.
  destruct (pr_mergeable pr) as [[]|]; [|done|]; simpl;
    rewrite ?get_insert_eq; unfold get; by simplify_map_eq.
Qed.

Section PullRequests.

Variable urls : string → any → bool.

(** C2: on a pull-request event without overrides the output has
    [pull_request_unverified_merge_branch = pull/<number>/merge], and
    [pull_request_merge_branch] is set (to the same ref) iff [mergeable] is not
    null; with [mergeable] false the run fails with the message that the pull
    request is not mergeable. *)
Theorem C2_pull_request_merge_branches (inputs : Inputs) (ctx : Context)
    (env : ProcessEnv) (app : option BitriseAppDetails) (p : Payload)
    (pr : PullRequest) :
  validateSelection inputs = None →
  payload ctx = Some p → pull_request p = Some pr →
  branch_override inputs = EmptyString → commit_override inputs = EmptyString →
  let r := createBuildOptions urls inputs ctx env app in
  (pr_mergeable pr ≠ Some false →
     returned r !! "pull_request_unverified_merge_branch" = Some (JStr (mergeRef pr)) ∧
     (is_set (returned r) "pull_request_merge_branch" = true ↔ pr_mergeable pr ≠ None) ∧
     (pr_mergeable pr ≠ None →
        returned r !! "pull_request_merge_branch" = Some (JStr (mergeRef pr)))) ∧
  (pr_mergeable pr = Some false →
     failed r = true ∧ SetFailed "Pull Request is not mergeable" ∈ logged r).
Proof.
  intros Hv Hp Hpr Hb Hc r. subst r.
  rewrite (createBuildOptions_valid urls _ ctx env app Hv).
  destruct (resolveOptions_pull_request urls inputs ctx env app p pr Hp Hpr Hb Hc)
    as [Hret Hlog].
  split.
  - intros Hm. rewrite Hret.
    destruct (transformPullRequestEvent_merge_branches pr Hm) as [Hu Hmb].
    unfold is_set. rewrite !finalFields_lookup by done. rewrite Hu, Hmb.
    split_and!; [done| |].
    + destruct (pr_mergeable pr); split; done.
    + by destruct (pr_mergeable pr).
  - intros Hm.
    assert (SetFailed "Pull Request is not mergeable"
              ∈ logged (resolveOptions urls inputs ctx env app)) as Hin.
    { apply Hlog. rewrite (transformPullRequestEvent_unmergeable pr Hm).
      apply list_elem_of_here. }
    split; [|done].
    unfold failed. apply existsb_exists.
    exists (SetFailed "Pull Request is not mergeable").
    split; [by apply list_elem_of_In|done].
Qed.

End PullRequests.

(** ** The override transform *)

Lemma union_absorb (a b : obj) : dom b ⊆ dom a → a ∪ b = a.
Proof.
  intros Hd. apply map_eq. intros k. rewrite lookup_union.
  destruct (a !! k) eqn:Ha; [by destruct (b !! k)|].
  apply not_elem_of_dom in Ha.
  assert (k ∉ dom b) as Hb%not_elem_of_dom by set_solver.
  by rewrite Hb.
Qed.

Lemma strict_eq_true (a b : any) : strict_eq a b = true → a = b.
Proof.
  destruct a, b; simpl; try done; intros H%bool_decide_eq_true; congruence.
Qed.

(** The parsed override holds a branch or a tag, never both. *)
Lemma parseOverride_one_ref app bo :
  parseOverride app bo !! "branch" = None ∨ parseOverride app bo !! "tag" = None.
Proof.
  unfold parseOverride. destruct (app_repo_url app);
    repeat case_match; simplify_map_eq; auto.
Qed.

Lemma parseOverride_dom app bo :
  dom (parseOverride app bo) ⊆ {[ "base_repository_url"; "branch"; "tag" ]}.
Proof.
  unfold parseOverride. destruct (app_repo_url app);
    repeat case_match; rewrite ?dom_insert_L, ?dom_singleton_L, ?dom_empty_L;
    set_solver.
Qed.

Lemma parseOverride_empty app :
  parseOverride app EmptyString !! "branch" = None ∧
  parseOverride app EmptyString !! "tag" = None.
Proof.
  unfold parseOverride. destruct (app_repo_url app); by simplify_map_eq.
Qed.

Lemma narrowToCommit_empty dflt (o : obj) : narrowToCommit dflt EmptyString o = o.
Proof. done. Qed.

Lemma narrowToCommit_same dflt co (o : obj) :
  JStr co = get_opt dflt "commit_hash" → narrowToCommit dflt co o = o.
Proof.
  intros Heq. unfold narrowToCommit.
  by rewrite strict_eq_JStr, bool_decide_eq_true_2, andb_false_r.
Qed.

Lemma narrowToCommit_other dflt co (o : obj) :
  co ≠ EmptyString → JStr co ≠ get_opt dflt "commit_hash" →
  narrowToCommit dflt co o =
    <["branch" := get o "branch"]> (<["tag" := get o "tag"]>
      (<["commit_hash" := JStr co]>
        (<["base_repository_url" := get o "base_repository_url"]> ∅))).
Proof.
  intros Hco Hne. unfold narrowToCommit.
  apply truthy_string_true in Hco. rewrite Hco.
  by rewrite strict_eq_JStr, bool_decide_eq_false_2.
Qed.

Lemma basicFields_dom ctx p ms ps (o : obj) :
  dom (basicFields ctx p ms ps o) =
    {[ "commit_hash"; "commit_message"; "commit_messages"; "commit_paths";
       "base_repository_url" ]} ∪ dom o.
Proof. unfold basicFields. rewrite !dom_insert_L. set_solver. Qed.

Lemma transformBasicEvent_dom ctx p :
  dom (returned (transformBasicEvent ctx p)) ⊆ sourceFields.
Proof.
  destruct (deleted p) eqn:Hd.
  - rewrite transformBasicEvent_deleted by done. set_solver.
  - destruct (transformBasicEvent_shape ctx p Hd) as (ms & ps & o & -> & Hcase).
    rewrite basicFields_dom. unfold sourceFields.
    destruct Hcase as [[_ ->]|(_ & _ & _ & [->| ->])];
      rewrite ?dom_singleton_L, ?dom_empty_L; set_solver.
Qed.

Lemma transformBasicEvent_exclusive ctx p :
  exclusive (returned (transformBasicEvent ctx p)).
Proof.
  unfold exclusive.
  destruct (deleted p) eqn:Hd.
  - by rewrite transformBasicEvent_deleted.
  - destruct (transformBasicEvent_shape ctx p Hd) as (ms & ps & o & -> & Hcase).
    unfold is_set. rewrite basicFields_lookup_branch, basicFields_lookup_tag.
    destruct Hcase as [[_ ->]|(_ & _ & _ & [->| ->])]; by simplify_map_eq.
Qed.

Lemma transformPullRequestEvent_exclusive pr :
  exclusive (returned (transformPullRequestEvent pr)).
Proof.
  unfold exclusive, transformPullRequestEvent.
  destruct (bool_decide (pr_mergeable pr ≠ None) && _); [done|]. simpl.
  assert (∀ o : obj, o !! "tag" = None → is_set o "tag" = false) as Htag.
  { intros o Ho. unfold is_set. by rewrite Ho. }
  rewrite (Htag _); [apply andb_false_r|].
  destruct (bool_decide _); by simplify_map_eq.
Qed.

Lemma finalFields_exclusive inputs envs o :
  exclusive o → exclusive (finalFields inputs envs o).
Proof.
  unfold exclusive, is_set. by rewrite !finalFields_lookup.
Qed.

Section Overrides.

Variable urls : string → any → bool.

Lemma processOverrides_returned app dflt bo co :
  returned (processOverrides urls app dflt bo co) =
    narrowToCommit dflt co
      (collapseToDefault urls app dflt bo (parseOverride app bo)).
Proof. unfold processOverrides. by rewrite returned_bind. Qed.

Lemma collapseToDefault_no_url app dflt bo (o : obj) :
  app_repo_url app = None → collapseToDefault urls app dflt bo o = o.
Proof. unfold collapseToDefault. intros ->. by destruct (sameRefAsDefault _ _ _). Qed.

(** The collapse keeps [branch] and [tag] exclusive. *)
Lemma collapseToDefault_exclusive app dflt bo :
  (∀ d, dflt = Some d → exclusive d) →
  exclusive (collapseToDefault urls app dflt bo (parseOverride app bo)).
Proof.
  intros Hd.
  assert (exclusive (parseOverride app bo)) as Hparse.
  { unfold exclusive, is_set.
    destruct (parseOverride_one_ref app bo) as [-> | ->];
      [done|apply andb_false_r]. }
  unfold collapseToDefault.
  destruct (sameRefAsDefault _ _ _) eqn:Hsame; [|done].
  destruct (app_repo_url app) as [u|]; [|done].
  destruct (urls u _); [|done].
  destruct dflt as [d|]; simpl; [|by rewrite (left_id_L ∅ (∪))].
  specialize (Hd d eq_refl).
  unfold sameRefAsDefault in Hsame.
  apply andb_true_iff in Hsame as [_ Hsame].
  unfold exclusive, is_set in *. rewrite !lookup_union.
  apply orb_true_iff in Hsame as [H|H];
    apply andb_true_iff in H as [Ht Heq%strict_eq_true];
    simpl in Heq; unfold get in Ht, Heq.
  - destruct (parseOverride_one_ref app bo) as [Hn|Hn]; rewrite Hn in *;
      simpl in *; [done|].
    rewrite Heq in Ht.
    destruct (d !! "branch") as [[]|], (d !! "tag") as [[]|];
      simpl in *; try done; by destruct (parseOverride app bo !! "branch").
  - destruct (parseOverride_one_ref app bo) as [Hn|Hn]; rewrite Hn in *;
      simpl in *; [|done].
    rewrite Heq in Ht.
    destruct (d !! "branch") as [[]|], (d !! "tag") as [[]|];
      simpl in *; try done; by destruct (parseOverride app bo !! "tag").
Qed.

Lemma narrowToCommit_exclusive dflt co (o : obj) :
  exclusive o → exclusive (narrowToCommit dflt co o).
Proof.
  unfold narrowToCommit. destruct (_ && _); [|done].
  unfold exclusive. rewrite is_set_insert_eq.
  rewrite is_set_insert_ne, is_set_insert_eq by done.
  by rewrite !is_set_get.
Qed.

Lemma processOverrides_exclusive app dflt bo co :
  (∀ d, dflt = Some d → exclusive d) →
  exclusive (returned (processOverrides urls app dflt bo co)).
Proof.
  intros Hd. rewrite processOverrides_returned.
  by apply narrowToCommit_exclusive, collapseToDefault_exclusive.
Qed.

Lemma processOverrides_dom app dflt bo co :
  (∀ d, dflt = Some d → dom d ⊆ sourceFields) →
  dom (returned (processOverrides urls app dflt bo co)) ⊆ sourceFields.
Proof.
  intros Hd. rewrite processOverrides_returned.
  pose proof (parseOverride_dom app bo) as Hp.
  assert (dom (collapseToDefault urls app dflt bo (parseOverride app bo))
            ⊆ sourceFields) as Hc.
  { unfold collapseToDefault.
    destruct (sameRefAsDefault _ _ _); [|unfold sourceFields; set_solver].
    destruct (app_repo_url app) as [u|]; [|unfold sourceFields; set_solver].
    destruct (urls u _); [|unfold sourceFields; set_solver].
    rewrite dom_union_L. destruct dflt as [d|]; simpl.
    - specialize (Hd d eq_refl). unfold sourceFields in *. set_solver.
    - rewrite dom_empty_L. unfold sourceFields. set_solver. }
  unfold narrowToCommit. destruct (_ && _); [|done].
  rewrite !dom_insert_L, dom_empty_L. unfold sourceFields. set_solver.
Qed.

Lemma defaultOptions_returned ctx :
  returned (defaultOptions ctx) =
    (λ p, returned (transformBasicEvent ctx p)) <$> payload ctx.
Proof.
  unfold defaultOptions. destruct (payload ctx); [|done].
  by rewrite returned_bind.
Qed.

(** C4: a commit override that differs from the commit hash of the default
    options narrows the result of the override transform to exactly the four
    fields [branch], [tag], [commit_hash] and [base_repository_url], with
    [commit_hash] the override and the other three as they were; a commit
    override equal to that commit hash leaves the result as it is without a
    commit override. *)
Theorem C4_commit_override_narrowing (app : option BitriseAppDetails)
    (dflt : option obj) (bo co : string) :
  co ≠ EmptyString →
  let pre := returned (processOverrides urls app dflt bo EmptyString) in
  let out := returned (processOverrides urls app dflt bo co) in
  (JStr co ≠ get_opt dflt "commit_hash" →
     dom out = {[ "branch"; "tag"; "commit_hash"; "base_repository_url" ]} ∧
     out !! "commit_hash" = Some (JStr co) ∧
     out !! "branch" = Some (get pre "branch") ∧
     out !! "tag" = Some (get pre "tag") ∧
     out !! "base_repository_url" = Some (get pre "base_repository_url")) ∧
  (JStr co = get_opt dflt "commit_hash" → out = pre).
Proof.
  intros Hco pre out. subst pre out.
  rewrite !processOverrides_returned, narrowToCommit_empty.
  split.
  - intros Hne. rewrite narrowToCommit_other by done.
    split_and!; [|by simplify_map_eq..].
    rewrite !dom_insert_L, dom_empty_L. set_solver.
  - intros Heq. by apply narrowToCommit_same.
Qed.

(** C3, amended: when the branch override resolves to the same non-empty
    branch name or tag name as the base-event transform produces, the app
    repository URL is present and names the repository of the base event, and
    the commit override is absent or is the commit hash of the base event, the
    result of the override transform is the full result of the base-event
    transform.  Without an app repository URL the collapse never happens: the
    result is the parsed override, narrowed by the commit override, and holds
    neither [commit_messages] nor [commit_paths]. *)
Theorem C3_collapse_to_default (app : option BitriseAppDetails)
    (ctx : Context) (p : Payload) (bo co : string) :
  let base := returned (transformBasicEvent ctx p) in
  (∀ u name,
     deleted p = false →
     name ≠ EmptyString →
     (parseOverride app bo !! "branch" = Some (JStr name) ∧
        base !! "branch" = Some (JStr name)) ∨
     (parseOverride app bo !! "tag" = Some (JStr name) ∧
        base !! "tag" = Some (JStr name)) →
     app_repo_url app = Some u →
     urls u (get base "base_repository_url") = true →
     co = EmptyString ∨ JStr co = get base "commit_hash" →
     returned (processOverrides urls app (Some base) bo co) = base) ∧
  (app_repo_url app = None →
     ∀ dflt,
       returned (processOverrides urls app dflt bo co) =
         narrowToCommit dflt co (parseOverride app bo) ∧
       returned (processOverrides urls app dflt bo co) !! "commit_messages" = None ∧
       returned (processOverrides urls app dflt bo co) !! "commit_paths" = None).
Proof.
  intros base. split.
  - intros u name Hd Hname Href Hu Hsame Hco.
    rewrite processOverrides_returned.
    assert (truthy_string bo = true) as Hbo.
    { destruct bo; [|done].
      destruct (parseOverride_empty app) as [Hb Ht].
      destruct Href as [[H _]|[H _]]; congruence. }
    assert (sameRefAsDefault (parseOverride app bo) (Some base) bo = true) as Hs.
    { unfold sameRefAsDefault. rewrite Hbo. simpl. unfold get.
      destruct name as [|c name]; [done|].
      destruct Href as [[-> ->]|[-> ->]]; simpl;
        rewrite bool_decide_eq_true_2 by done; [done|apply orb_true_r]. }
    assert (dom (parseOverride app bo) ⊆ dom base) as Hdom.
    { pose proof (parseOverride_dom app bo) as Hp.
      destruct (transformBasicEvent_shape ctx p Hd) as (ms & ps & o & Hb & _).
      intros k Hk. apply elem_of_dom.
      apply elem_of_dom in Hk as Hk'.
      apply Hp in Hk.
      destruct (parseOverride_one_ref app bo) as [Hn|Hn];
        destruct Href as [[Hpo Hba]|[Hpo Hba]]; try congruence.
      - assert (k = "base_repository_url" ∨ k = "tag") as [-> | ->].
        { destruct (decide (k = "branch")) as [->|];
            [rewrite Hn in Hk'; by destruct Hk'|set_solver]. }
        + subst base. rewrite Hb. unfold basicFields. by simplify_map_eq.
        + by rewrite Hba.
      - assert (k = "base_repository_url" ∨ k = "branch") as [-> | ->].
        { destruct (decide (k = "tag")) as [->|];
            [rewrite Hn in Hk'; by destruct Hk'|set_solver]. }
        + subst base. rewrite Hb. unfold basicFields. by simplify_map_eq.
        + by rewrite Hba. }
    assert (collapseToDefault urls app (Some base) bo (parseOverride app bo) = base)
      as ->.
    { unfold collapseToDefault. rewrite Hs, Hu. simpl. rewrite Hsame.
      simpl. by apply union_absorb. }
    destruct Hco as [-> | Hco]; [done|by apply narrowToCommit_same].
  - intros Hu dflt. rewrite processOverrides_returned.
    rewrite collapseToDefault_no_url by done.
    split; [done|].
    pose proof (parseOverride_dom app bo) as Hp.
    assert (parseOverride app bo !! "commit_messages" = None) as Hm.
    { apply not_elem_of_dom. set_solver. }
    assert (parseOverride app bo !! "commit_paths" = None) as Hpa.
    { apply not_elem_of_dom. set_solver. }
    unfold narrowToCommit. destruct (_ && _); [by simplify_map_eq|done].
Qed.

End Overrides.

(** ** The whole resolver *)

Section CreateBuildOptions.

Variable urls : string → any → bool.

Lemma defaultOptions_exclusive ctx d :
  returned (defaultOptions ctx) = Some d → exclusive d.
Proof.
  rewrite defaultOptions_returned. destruct (payload ctx) as [p|]; [|done].
  intros [= <-]. apply transformBasicEvent_exclusive.
Qed.

Lemma defaultOptions_dom ctx d :
  returned (defaultOptions ctx) = Some d → dom d ⊆ sourceFields.
Proof.
  rewrite defaultOptions_returned. destruct (payload ctx) as [p|]; [|done].
  intros [= <-]. apply transformBasicEvent_dom.
Qed.

Lemma resolveOptions_exclusive inputs ctx env app :
  exclusive (returned (resolveOptions urls inputs ctx env app)).
Proof.
  unfold resolveOptions. rewrite !returned_bind.
  destruct (truthy_string (branch_override inputs) || _).
  { rewrite returned_bind, finish_returned.
    apply finalFields_exclusive, processOverrides_exclusive.
    apply defaultOptions_exclusive. }
  destruct (payload ctx ≫= pull_request) as [pr|].
  { rewrite returned_bind, finish_returned.
    apply finalFields_exclusive, transformPullRequestEvent_exclusive. }
  destruct (returned (defaultOptions ctx)) as [o|] eqn:Ho; [|done].
  rewrite finish_returned.
  by apply finalFields_exclusive, (defaultOptions_exclusive ctx).
Qed.

(** C9: whatever the event, the overrides and the path taken, the object
    [createBuildOptions] returns never has both [branch] and [tag] set. *)
Theorem C9_branch_and_tag_never_both_set (inputs : Inputs) (ctx : Context)
    (env : ProcessEnv) (app : option BitriseAppDetails) :
  let o := returned (createBuildOptions urls inputs ctx env app) in
  is_set o "branch" && is_set o "tag" = false.
Proof.
  intros o. subst o. unfold createBuildOptions.
  destruct (validateSelection inputs); [done|].
  apply resolveOptions_exclusive.
Qed.

(** C6: as soon as a branch override or a commit override is given, the
    options are those of the override transform, also on a pull-request
    event: the returned object is the final object over the result of
    [processOverrides], none of the fields of the pull-request transform is
    in it, and its environments are the passed-through variables alone, with
    no draft entry appended. *)
Theorem C6_overrides_take_precedence (inputs : Inputs) (ctx : Context)
    (env : ProcessEnv) (app : option BitriseAppDetails) :
  validateSelection inputs = None →
  truthy_string (branch_override inputs) || truthy_string (commit_override inputs)
    = true →
  let o := returned (createBuildOptions urls inputs ctx env app) in
  let passed := prepareEnvironmentVariables (env_vars_for_bitrise inputs) env in
  o = finalFields inputs passed
        (returned (processOverrides urls app (returned (defaultOptions ctx))
                     (branch_override inputs) (commit_override inputs))) ∧
  (∀ k, k ∈ pullRequestFields → o !! k = None) ∧
  o !! "environments" = Some (JEnvs passed).
Proof.
  intros Hv Ho o passed. subst o passed.
  rewrite (createBuildOptions_valid urls _ ctx env app Hv).
  rewrite (resolveOptions_override urls inputs ctx env app Ho).
  split_and!; [done| |apply finalFields_environments].
  intros k Hk.
  pose proof (processOverrides_dom urls app (returned (defaultOptions ctx))
                (branch_override inputs) (commit_override inputs)
                (defaultOptions_dom ctx)) as Hdom.
  assert ((k ∉ sourceFields) ∧ k ≠ "workflow_id" ∧ k ≠ "pipeline_id" ∧
          k ≠ "skip_git_status_report" ∧ k ≠ "environments") as (Hs & ? & ? & ? & ?).
  { unfold pullRequestFields, sourceFields in *.
    repeat (apply elem_of_cons in Hk as [-> | Hk]; [split_and!; set_solver|]).
    by apply elem_of_nil in Hk. }
  rewrite finalFields_lookup by done.
  apply not_elem_of_dom. set_solver.
Qed.

End CreateBuildOptions.

(** ** Environment passthrough *)

Lemma prepareEnvironmentVariables_names input env :
  mapped_to <$> prepareEnvironmentVariables input env =
    (filter (λ e : string * option string, e.1 ∈ envPassThrough input) env).*1.
Proof.
  unfold prepareEnvironmentVariables. rewrite <- list_fmap_compose.
  by apply list_fmap_ext.
Qed.

Lemma elem_of_envPassThrough (input name : string) :
  name ∈ envPassThrough input ↔
  name ≠ EmptyString ∧ ∃ piece, piece ∈ split "," input ∧ name = trim piece.
Proof.
  unfold envPassThrough. rewrite list_elem_of_filter, list_elem_of_fmap.
  split.
  - intros [Hne (piece & -> & Hin)]. eauto.
  - intros [Hne (piece & Hin & ->)]. eauto.
Qed.

(** C5, amended: the passed-through entries come in the encounter order of
    the entries of the environment, not in the order of the allow-list.  A
    name has an entry exactly when it is a non-empty trimmed piece of the
    comma-separated input and the environment has it; there is one entry per
    such name, with the value of the name in the environment (the empty
    string when that value is undefined) and [is_expand] false. *)
Theorem C5_environment_passthrough (input : string) (env : ProcessEnv) :
  NoDup env.*1 →
  let out := prepareEnvironmentVariables input env in
  (∀ name, name ∈ mapped_to <$> out ↔
     (name ≠ EmptyString ∧ ∃ piece, piece ∈ split "," input ∧ name = trim piece) ∧
     name ∈ env.*1) ∧
  NoDup (mapped_to <$> out) ∧
  (∀ e, e ∈ out →
     ∃ v, (mapped_to e, v) ∈ env ∧ value e = default EmptyString v ∧
          is_expand e = false) ∧
  mapped_to <$> out `sublist_of` env.*1.
Proof.
  intros Hnd out. subst out.
  assert (mapped_to <$> prepareEnvironmentVariables input env `sublist_of` env.*1)
    as Hsub.
  { rewrite prepareEnvironmentVariables_names.
    apply fmap_sublist, sublist_filter. }
  split_and!; [| |  |done].
  - intros name. rewrite <- elem_of_envPassThrough.
    rewrite prepareEnvironmentVariables_names.
    rewrite !list_elem_of_fmap. split.
    + intros ([k v] & -> & [Hk Hin]%list_elem_of_filter). simpl in *.
      split; [done|]. by exists (k, v).
    + intros [Hallow ([k v] & -> & Hin)]. exists (k, v).
      split; [done|]. by apply list_elem_of_filter.
  - by eapply sublist_NoDup.
  - intros e He. unfold prepareEnvironmentVariables in He.
    apply list_elem_of_fmap in He as ([k v] & -> & [_ Hin]%list_elem_of_filter).
    by exists v.
Qed.

(** ** Runs on the example events *)

(** The example of the allow-list [A, C] over the entries [A = 1, B = 2]. *)
Example passthrough_A_C :
  prepareEnvironmentVariables "A,C" exampleEnv =
    [{| mapped_to := "A"; value := "1"; is_expand := false |}].
Proof. reflexivity. Qed.

(** The entries follow the environment, not the position of their name in the
    allow-list. *)
Example passthrough_B_A :
  mapped_to <$> prepareEnvironmentVariables " B , A" exampleEnv = ["A"; "B"].
Proof. reflexivity. Qed.

(** The allow-list [B, A] over the entries [A = 1, B = 2]: both names are
    passed, and they do not come in the order of the allow-list. *)
Lemma C5_counterexample :
  envPassThrough "B,A" = ["B"; "A"] ∧
  mapped_to <$> prepareEnvironmentVariables "B,A" exampleEnv = ["A"; "B"] ∧
  ¬ (mapped_to <$> prepareEnvironmentVariables "B,A" exampleEnv
       `sublist_of` envPassThrough "B,A").
Proof.
  split; [reflexivity|]. split; [reflexivity|].
  change (¬ (["A"; "B"] `sublist_of` ["B"; "A"])).
  intros H.
  apply sublist_cons_r in H as [H|(l & Heq & _)]; [|discriminate Heq].
  apply sublist_cons_r in H as [H|(l & Heq & H)].
  - apply sublist_nil_r in H. discriminate H.
  - injection Heq as <-. apply sublist_nil_r in H. discriminate H.
Qed.

(** C1: on the push that deletes a ref and on a pull request that is not
    mergeable the failure is recorded, but resolution goes on with the empty
    object the helper returned: [createBuildOptions] returns the final object
    with [workflow_id], [skip_git_status_report] and [environments] over it,
    after the summary line, where a missing payload returns the empty object. *)
Theorem C1_failed_transform_does_not_stop_resolution :
  let deletion := createBuildOptions sameUrl workflowOnly deletionOfMain [] None in
  let unmergeable :=
    createBuildOptions sameUrl workflowOnly (pullRequestEvent (Some false)) [] None in
  (logged deletion =
     [InfoProcessEvent "push";
      SetFailed "this is a 'Deleted' event, no build can be started";
      InfoSourceOptions ∅] ∧
   returned deletion = finalFields workflowOnly [] ∅ ∧
   returned deletion !! "workflow_id" = Some (JStr "primary") ∧
   returned deletion ≠ ∅) ∧
  (logged unmergeable =
     [InfoProcessEvent "pull_request";
      SetFailed "Pull Request is not mergeable";
      InfoSourceOptions ∅] ∧
   returned unmergeable = finalFields workflowOnly [draftEnvironment] ∅ ∧
   returned unmergeable !! "environments" = Some (JEnvs [draftEnvironment]) ∧
   returned unmergeable ≠ ∅) ∧
  createBuildOptions sameUrl workflowOnly noPayload [] None =
    (∅, [InfoProcessEvent "schedule"; SetFailed "No payload found in the context."]).
Proof.
  assert (∀ o : obj, o !! "workflow_id" = Some (JStr "primary") → o ≠ ∅) as Hne.
  { intros o Ho ->. by rewrite lookup_empty in Ho. }
  split_and!; try (vm_compute; reflexivity); by apply Hne.
Qed.

(** The pull request 42, mergeable, then not mergeable. *)
Lemma C2_witness :
  let r := createBuildOptions sameUrl workflowOnly (pullRequestEvent (Some true))
             exampleEnv None in
  let r' := createBuildOptions sameUrl workflowOnly (pullRequestEvent (Some false))
              exampleEnv None in
  validateSelection workflowOnly = None ∧
  returned r !! "pull_request_unverified_merge_branch" = Some (JStr "pull/42/merge") ∧
  returned r !! "pull_request_merge_branch" = Some (JStr "pull/42/merge") ∧
  failed r' = true.
Proof.
  pose proof (C2_pull_request_merge_branches sameUrl workflowOnly
                (pullRequestEvent (Some true)) exampleEnv None _
                (examplePullRequest (Some true))
                eq_refl eq_refl eq_refl eq_refl eq_refl) as [H _].
  pose proof (C2_pull_request_merge_branches sameUrl workflowOnly
                (pullRequestEvent (Some false)) exampleEnv None _
                (examplePullRequest (Some false))
                eq_refl eq_refl eq_refl eq_refl eq_refl) as [_ H'].
  destruct H as (Hu & _ & Hm); [discriminate|].
  destruct (H' eq_refl) as [Hf _].
  split; [reflexivity|]. split; [exact Hu|]. split; [apply Hm; discriminate|exact Hf].
Defined.

(** The branch override [main] on a push to [main] of the app's repository,
    with a commit override that is not the pushed commit. *)
Lemma C3_counterexample :
  let base := returned (transformBasicEvent pushToMain pushPayload) in
  parseOverride exampleApp "main" !! "branch" = Some (JStr "main") ∧
  base !! "branch" = Some (JStr "main") ∧
  app_repo_url exampleApp = Some "https://github.com/octo/app.git" ∧
  sameUrl "https://github.com/octo/app.git" (get base "base_repository_url") = true ∧
  returned (processOverrides sameUrl exampleApp (Some base) "main" "77aa11b") ≠ base.
Proof.
  split_and!; try (vm_compute; reflexivity).
  intros Heq.
  apply (f_equal (λ o : obj, o !! "commit_messages")) in Heq.
  vm_compute in Heq. discriminate Heq.
Qed.

(** The branch override [refs/heads/main] on a push to [main] of the app's
    repository; the same override without app details. *)
Lemma C3_witness :
  let base := returned (transformBasicEvent pushToMain pushPayload) in
  deleted pushPayload = false ∧
  app_repo_url exampleApp = Some "https://github.com/octo/app.git" ∧
  returned (processOverrides sameUrl exampleApp (Some base) "refs/heads/main"
              EmptyString) = base ∧
  returned (processOverrides sameUrl None (Some base) "refs/heads/main"
              EmptyString) !! "commit_messages" = None.
Proof.
  split; [reflexivity|]. split; [reflexivity|]. split.
  - apply (proj1 (C3_collapse_to_default sameUrl exampleApp pushToMain pushPayload
                    "refs/heads/main" EmptyString)
             "https://github.com/octo/app.git" "main").
    + reflexivity.
    + discriminate.
    + left. split; vm_compute; reflexivity.
    + reflexivity.
    + vm_compute; reflexivity.
    + left. reflexivity.
  - apply (proj2 (C3_collapse_to_default sameUrl None pushToMain pushPayload
                    "refs/heads/main" EmptyString) eq_refl).
Defined.

(** The commit override [77aa11b], then the pushed commit itself, over the
    branch override [main]. *)
Lemma C4_witness :
  let base := returned (transformBasicEvent pushToMain pushPayload) in
  let out := returned (processOverrides sameUrl exampleApp (Some base) "main" "77aa11b") in
  "77aa11b" ≠ EmptyString ∧
  dom out = {[ "branch"; "tag"; "commit_hash"; "base_repository_url" ]} ∧
  out !! "commit_hash" = Some (JStr "77aa11b") ∧
  returned (processOverrides sameUrl exampleApp (Some base) "main" "4f2a9c1") =
    returned (processOverrides sameUrl exampleApp (Some base) "main" EmptyString).
Proof.
  assert ("77aa11b" ≠ EmptyString) as Hne by discriminate.
  assert ("4f2a9c1" ≠ EmptyString) as Hne' by discriminate.
  pose proof (C4_commit_override_narrowing sameUrl exampleApp
                (Some (returned (transformBasicEvent pushToMain pushPayload)))
                "main" "77aa11b" Hne) as [H _].
  pose proof (C4_commit_override_narrowing sameUrl exampleApp
                (Some (returned (transformBasicEvent pushToMain pushPayload)))
                "main" "4f2a9c1" Hne') as [_ H'].
  destruct H as (Hdom & Hc & _); [vm_compute; discriminate|].
  split; [exact Hne|]. split; [exact Hdom|]. split; [exact Hc|].
  apply H'. vm_compute; reflexivity.
Defined.

(** The allow-list [A, C] over the entries [A = 1, B = 2]: [A] is passed,
    [C] is omitted and [B] is excluded. *)
Lemma C5_witness :
  let names := mapped_to <$> prepareEnvironmentVariables "A,C" exampleEnv in
  NoDup exampleEnv.*1 ∧
  "A" ∈ names ∧ ("B" ∉ names) ∧ ("C" ∉ names) ∧ NoDup names ∧
  (∀ e, e ∈ prepareEnvironmentVariables "A,C" exampleEnv → is_expand e = false) ∧
  names `sublist_of` exampleEnv.*1.
Proof.
  assert (NoDup exampleEnv.*1) as Hnd.
  { apply (bool_decide_unpack _). vm_compute. exact I. }
  destruct (C5_environment_passthrough "A,C" exampleEnv Hnd) as (Hn & Hd & Hv & Hs).
  split; [exact Hnd|]. split; [|split; [|split; [|split; [exact Hd|split; [|exact Hs]]]]].
  - apply (proj2 (Hn "A")). split.
    + split; [discriminate|]. exists "A". split; [apply list_elem_of_here|reflexivity].
    + apply list_elem_of_here.
  - intros Hin. apply (proj1 (Hn "B")) in Hin as [[_ (piece & Hp & Ht)] _].
    change (split "," "A,C") with ["A"; "C"] in Hp.
    apply elem_of_cons in Hp as [-> | Hp]; [discriminate Ht|].
    apply elem_of_cons in Hp as [-> | Hp]; [discriminate Ht|].
    by apply elem_of_nil in Hp.
  - intros Hin. apply (proj1 (Hn "C")) in Hin as [_ Hin].
    change (exampleEnv.*1) with ["A"; "B"] in Hin.
    apply elem_of_cons in Hin as [Heq | Hin]; [discriminate Heq|].
    apply elem_of_cons in Hin as [Heq | Hin]; [discriminate Heq|].
    by apply elem_of_nil in Hin.
  - intros e He. destruct (Hv e He) as (v & _ & _ & Hx). exact Hx.
Defined.

(** The branch override [release] on the draft pull request 42. *)
Lemma C6_witness :
  let inputs := withOverrides "release" EmptyString in
  let o := returned (createBuildOptions sameUrl inputs (pullRequestEvent (Some true))
                       exampleEnv exampleApp) in
  validateSelection inputs = None ∧
  (∀ k, k ∈ pullRequestFields → o !! k = None) ∧
  o !! "environments" = Some (JEnvs []).
Proof.
  destruct (C6_overrides_take_precedence sameUrl (withOverrides "release" EmptyString)
              (pullRequestEvent (Some true)) exampleEnv exampleApp
              eq_refl eq_refl) as (_ & Hk & He).
  split_and!; [reflexivity|exact Hk|exact He].
Defined.

(** Both a workflow and a pipeline, neither, and the workflow alone. *)
Lemma C7_witness :
  let both := createBuildOptions sameUrl (selecting "primary" "deploy") pushToMain
                exampleEnv None in
  let neither := createBuildOptions sameUrl (selecting EmptyString EmptyString)
                   pushToMain exampleEnv None in
  let r := createBuildOptions sameUrl workflowOnly pushToMain exampleEnv None in
  (returned both = ∅ ∧ ∃ message, logged both = [SetFailed message]) ∧
  (returned neither = ∅ ∧ ∃ message, logged neither = [SetFailed message]) ∧
  failed r = false ∧
  xorb (is_set (returned r) "workflow_id") (is_set (returned r) "pipeline_id") = true.
Proof.
  assert (failed (createBuildOptions sameUrl workflowOnly pushToMain exampleEnv None)
            = false) as Hok by (vm_compute; reflexivity).
  split; [|split; [|split]].
  - exact (proj1 (C7_exactly_one_of_workflow_and_pipeline sameUrl
                    (selecting "primary" "deploy") pushToMain exampleEnv None)
             eq_refl).
  - exact (proj1 (C7_exactly_one_of_workflow_and_pipeline sameUrl
                    (selecting EmptyString EmptyString) pushToMain exampleEnv None)
             eq_refl).
  - exact Hok.
  - exact (proj2 (C7_exactly_one_of_workflow_and_pipeline sameUrl workflowOnly
                    pushToMain exampleEnv None) Hok).
Defined.

(** The push to [main] and the push of the tag [v1.0]. *)
Lemma C8_witness :
  let branch := returned (createBuildOptions sameUrl workflowOnly pushToMain [] None) in
  let tag := returned (createBuildOptions sameUrl workflowOnly pushOfTag [] None) in
  (branch !! "branch" = Some (JStr "main") ∧ branch !! "tag" = None) ∧
  (tag !! "tag" = Some (JStr "v1.0") ∧ tag !! "branch" = None).
Proof.
  split.
  - apply (proj1 (C8_ref_namespace_stripped sameUrl workflowOnly pushToMain [] None
                    pushPayload "main" eq_refl eq_refl eq_refl eq_refl
                    ltac:(vm_compute; reflexivity))).
    reflexivity.
  - apply (proj2 (C8_ref_namespace_stripped sameUrl workflowOnly pushOfTag [] None
                    tagPayload "v1.0" eq_refl eq_refl eq_refl eq_refl
                    ltac:(vm_compute; reflexivity))).
    reflexivity.
Defined.

(** The push of a tag, which has no head commit. *)
Lemma C10_witness :
  let o := returned (transformBasicEvent pushOfTag tagPayload) in
  failed (transformBasicEvent pushOfTag tagPayload) = false ∧
  o !! "commit_messages" = Some (JMessages []) ∧
  o !! "commit_paths" = Some (JPaths []) ∧
  is_set o "commit_message" = false.
Proof.
  destruct (C10_commit_lists_always_present pushOfTag tagPayload eq_refl)
    as (_ & Hl & Hm).
  destruct (Hl eq_refl) as [Hms Hps].
  split_and!; [reflexivity|exact Hms|exact Hps|exact Hm].
Defined.

(** * Further properties of the resolver *)

(** ** The base-event transform, continued *)

Lemma startsWith_slice (s p : string) :
  startsWith s p = true → p +:+ slice s (String.length p) = s.
Proof.
  revert s. induction p as [|a p IH]; intros s; [done|].
  destruct s as [|b s]; [done|]. simpl.
  intros [Hab Hp]%andb_true_iff. apply bool_decide_eq_true in Hab as ->.
  change (String b (p +:+ slice s (String.length p)) = String b s).
  f_equal. by apply IH.
Qed.

(** X1: on a branch ref the two commit lists of the base-event transform are
    aligned with the commits of the event (the pushed list, or the head
    commit alone when the payload has no list): they have one entry per
    commit, and entry [i] of each list comes from commit [i]. *)
Theorem X1_commit_lists_aligned (ctx : Context) (p : Payload) :
  deleted p = false → startsWith (ref ctx) "refs/heads/" = true →
  ∃ messages paths,
    returned (transformBasicEvent ctx p) !! "commit_messages" = Some (JMessages messages) ∧
    returned (transformBasicEvent ctx p) !! "commit_paths" = Some (JPaths paths) ∧
    length messages = length (pushedCommits p) ∧
    length paths = length (pushedCommits p) ∧
    ∀ i c, pushedCommits p !! i = Some c →
      messages !! i = Some (commit_message c) ∧
      paths !! i = Some {| added := commit_added c; removed := commit_removed c;
                           modified := commit_modified c |}.
Proof.
  intros Hd Hb. rewrite transformBasicEvent_branch by done.
  eexists _, _. unfold basicFields.
  split; [by simplify_map_eq|]. split; [by simplify_map_eq|].
  rewrite !length_fmap. split; [done|]. split; [done|].
  intros i c Hi. rewrite !list_lookup_fmap, Hi. done.
Qed.

(** X2: the ref can be read back from the result of the base-event transform:
    a result with [branch = b] comes from the ref [refs/heads/b], and a result
    with [tag = t] from the ref [refs/tags/t]. *)
Theorem X2_ref_read_back (ctx : Context) (p : Payload) (name : string) :
  (returned (transformBasicEvent ctx p) !! "branch" = Some (JStr name) →
     ref ctx = "refs/heads/" +:+ name) ∧
  (returned (transformBasicEvent ctx p) !! "tag" = Some (JStr name) →
     ref ctx = "refs/tags/" +:+ name).
Proof.
  destruct (deleted p) eqn:Hd.
  { rewrite transformBasicEvent_deleted by done. by split. }
  destruct (startsWith (ref ctx) "refs/heads/") eqn:Hb.
  - rewrite transformBasicEvent_branch by done.
    rewrite basicFields_lookup_branch, basicFields_lookup_tag.
    split; intros H; simplify_map_eq.
    symmetry. by apply (startsWith_slice (ref ctx) "refs/heads/").
  - destruct (startsWith (ref ctx) "refs/tags/") eqn:Ht.
    + rewrite transformBasicEvent_tag by done.
      rewrite basicFields_lookup_branch, basicFields_lookup_tag.
      split; intros H; simplify_map_eq.
      symmetry. by apply (startsWith_slice (ref ctx) "refs/tags/").
    + rewrite transformBasicEvent_other by done.
      rewrite basicFields_lookup_branch, basicFields_lookup_tag.
      split; intros H; simplify_map_eq.
Qed.

(** ** Failures *)

Lemma transformPullRequestEvent_failed pr :
  failed (transformPullRequestEvent pr) = bool_decide (pr_mergeable pr = Some false).
Proof.
  unfold transformPullRequestEvent. by destruct (pr_mergeable pr) as [[]|].
Qed.

Lemma defaultOptions_failed ctx :
  failed (defaultOptions ctx) =
    match payload ctx with Some p => deleted p | None => false end.
Proof.
  unfold defaultOptions. destruct (payload ctx) as [p|]; [|done].
  rewrite failed_bind, transformBasicEvent_failed. apply orb_false_r.
Qed.

Section Failures.

Variable urls : string → any → bool.

Lemma processOverrides_logged app dflt bo co :
  logged (processOverrides urls app dflt bo co) =
    if app is None then [WarnTokenRecommended] else [].
Proof. unfold processOverrides. rewrite logged_bind. by destruct app. Qed.

Lemma processOverrides_failed app dflt bo co :
  failed (processOverrides urls app dflt bo co) = false.
Proof. unfold failed. rewrite processOverrides_logged. by destruct app. Qed.

(** When the run of the resolver is marked as failed. *)
Lemma resolveOptions_failed inputs ctx env app :
  failed (resolveOptions urls inputs ctx env app) =
    match payload ctx with Some p => deleted p | None => false end ||
    (negb (truthy_string (branch_override inputs) ||
           truthy_string (commit_override inputs)) &&
     match payload ctx ≫= pull_request with
     | Some pr => bool_decide (pr_mergeable pr = Some false)
     | None => if payload ctx is None then true else false
     end).
Proof.
  unfold resolveOptions. rewrite !failed_bind, defaultOptions_failed.
  rewrite defaultOptions_returned. simpl.
  destruct (truthy_string (branch_override inputs) || _).
  { rewrite failed_bind, processOverrides_failed, finish_failed.
    by rewrite !orb_false_r. }
  destruct (payload ctx) as [p|]; simpl; [|done].
  destruct (pull_request p) as [pr|]; simpl.
  - rewrite failed_bind, transformPullRequestEvent_failed, finish_failed.
    by rewrite !orb_false_r.
  - by rewrite finish_failed, !orb_false_r.
Qed.

(** X3: [createBuildOptions] marks the run as failed in exactly these cases:
    the workflow/pipeline inputs do not pass the checks; the payload is the
    deletion of a ref (with or without overrides); or no override is given
    and either there is no payload or the pull request is not mergeable. *)
Theorem X3_failure_cases (inputs : Inputs) (ctx : Context)
    (env : ProcessEnv) (app : option BitriseAppDetails) :
  failed (createBuildOptions urls inputs ctx env app) = true ↔
    validateSelection inputs ≠ None ∨
    (∃ p, payload ctx = Some p ∧ deleted p = true) ∨
    (branch_override inputs = EmptyString ∧ commit_override inputs = EmptyString ∧
     (payload ctx = None ∨
      ∃ p pr, payload ctx = Some p ∧ pull_request p = Some pr ∧
              pr_mergeable pr = Some false)).
Proof.
  destruct (validateSelection inputs) as [m|] eqn:Hv.
  { rewrite (createBuildOptions_invalid urls _ ctx env app _ Hv).
    split; [by left|done]. }
  rewrite (createBuildOptions_valid urls _ ctx env app Hv).
  rewrite resolveOptions_failed.
  destruct (branch_override inputs) as [|cb bo'] eqn:Hbo;
    destruct (commit_override inputs) as [|cc co'] eqn:Hco; simpl;
    destruct (payload ctx) as [p|] eqn:Hp; simpl;
    try destruct (deleted p) eqn:Hd; simpl;
    try destruct (pull_request p) as [pr|] eqn:Hpr; simpl;
    try (destruct (pr_mergeable pr) as [[]|] eqn:Hm; simpl);
    (split; [first [done | intros _; naive_solver] | naive_solver]).
Qed.

End Failures.


(** ** Pull requests, continued *)

Lemma transformPullRequestEvent_returned pr :
  pr_mergeable pr ≠ Some false →
  returned (transformPullRequestEvent pr) =
    pullRequestObject pr
      (if pr_mergeable pr is Some _
       then <["pull_request_merge_branch" := JStr (mergeRef pr)]>
              {["pull_request_unverified_merge_branch" := JStr (mergeRef pr)]}
       else {["pull_request_unverified_merge_branch" := JStr (mergeRef pr)]}).
Proof.
  intros Hm. unfold transformPullRequestEvent.
  destruct (pr_mergeable pr) as [[]|]; [reflexivity|by destruct Hm|reflexivity].
Qed.

Section PullRequestFacts.

Variable urls : string → any → bool.

(** X5: without overrides the environments of the returned object are the
    passed-through variables, followed by the entry [GITHUB_PR_IS_DRAFT = true]
    exactly when the event is a draft pull request, whatever its action and
    its mergeability are; a push never gets the entry. *)
Theorem X5_draft_entry_last (inputs : Inputs) (ctx : Context)
    (env : ProcessEnv) (app : option BitriseAppDetails) (p : Payload) :
  validateSelection inputs = None → payload ctx = Some p →
  branch_override inputs = EmptyString → commit_override inputs = EmptyString →
  returned (createBuildOptions urls inputs ctx env app) !! "environments" =
    Some (JEnvs (prepareEnvironmentVariables (env_vars_for_bitrise inputs) env ++
                 match pull_request p with
                 | Some pr => if pr_draft pr then [draftEnvironment] else []
                 | None => []
                 end)).
Proof.
  intros Hv Hp Hb Hc.
  rewrite (createBuildOptions_valid urls _ ctx env app Hv).
  destruct (pull_request p) as [pr|] eqn:Hpr.
  - destruct (resolveOptions_pull_request urls inputs ctx env app p pr
                Hp Hpr Hb Hc) as [-> _].
    rewrite finalFields_environments.
    destruct (pr_draft pr); [done|by rewrite app_nil_r].
  - destruct (resolveOptions_basic urls inputs ctx env app p Hp Hpr Hb Hc)
      as [-> _].
    by rewrite finalFields_environments, app_nil_r.
Qed.

(** X6: the object returned for a pull request that is not unmergeable has
    exactly the fields of the pull-request transform and the four final
    fields, with [pull_request_merge_branch] only when [mergeable] is known;
    it has no [tag], [commit_messages] or [commit_paths], although the
    base-event transform ran on the same payload; and
    [head_repository_url] and [pull_request_repository_url] are the same. *)
Theorem X6_pull_request_fields (inputs : Inputs) (ctx : Context)
    (env : ProcessEnv) (app : option BitriseAppDetails) (p : Payload)
    (pr : PullRequest) :
  validateSelection inputs = None →
  payload ctx = Some p → pull_request p = Some pr →
  branch_override inputs = EmptyString → commit_override inputs = EmptyString →
  pr_mergeable pr ≠ Some false →
  let o := returned (createBuildOptions urls inputs ctx env app) in
  dom o =
    list_to_set
      ([ "workflow_id"; "pipeline_id"; "skip_git_status_report"; "environments";
         "commit_hash"; "commit_message"; "branch"; "branch_repo_owner";
         "branch_dest"; "branch_dest_repo_owner"; "pull_request_id";
         "head_repository_url"; "pull_request_repository_url";
         "base_repository_url"; "pull_request_head_branch"; "pull_request_author";
         "diff_url"; "pull_request_ready_state" ] ++
       (if pr_mergeable pr is Some _ then [ "pull_request_merge_branch" ] else []) ++
       [ "pull_request_unverified_merge_branch" ]) ∧
  o !! "tag" = None ∧ o !! "commit_messages" = None ∧ o !! "commit_paths" = None ∧
  o !! "head_repository_url" = o !! "pull_request_repository_url" ∧
  o !! "pull_request_id" = Some (JNum (pr_number pr)).
Proof.
  intros Hv Hp Hpr Hb Hc Hm o. subst o.
  rewrite (createBuildOptions_valid urls _ ctx env app Hv).
  destruct (resolveOptions_pull_request urls inputs ctx env app p pr
              Hp Hpr Hb Hc) as [-> _].
  rewrite !finalFields_lookup by done.
  rewrite transformPullRequestEvent_returned by done.
  unfold finalFields, pullRequestObject.
  destruct (pr_mergeable pr) as [[]|]; [|by destruct Hm|].
  - split; [|by simplify_map_eq].
    rewrite !dom_insert_L, dom_singleton_L. simpl.
    by rewrite (right_id_L ∅ (∪)).
  - split; [|by simplify_map_eq].
    rewrite !dom_insert_L, dom_singleton_L. simpl.
    by rewrite (right_id_L ∅ (∪)).
Qed.

(** X7: with [listen] a pipeline is never accepted: [createBuildOptions]
    returns the empty object and logs one failure, the message about listen
    when no workflow is given and the message about giving both otherwise. *)
Theorem X7_listen_rejects_pipeline (inputs : Inputs) (ctx : Context)
    (env : ProcessEnv) (app : option BitriseAppDetails) :
  listen inputs = true → bitrise_pipeline inputs ≠ EmptyString →
  createBuildOptions urls inputs ctx env app =
    (∅, [SetFailed
           (if truthy_string (bitrise_workflow inputs)
            then "Cannot specify both bitrise-workflow and bitrise-pipeline"
            else "Listen option is not supported with bitrise-pipeline")]).
Proof.
  intros Hl Hp%truthy_string_true.
  apply createBuildOptions_invalid. unfold validateSelection.
  rewrite Hp, Hl. by destruct (truthy_string (bitrise_workflow inputs)).
Qed.

End PullRequestFacts.

(** ** Overrides, continued *)

Section OverrideFacts.

Variable urls : string → any → bool.

Lemma sameRefAsDefault_None (o : obj) (bo : string) :
  sameRefAsDefault o None bo = false.
Proof.
  unfold sameRefAsDefault. simpl.
  destruct (get o "branch"), (get o "tag"); simpl; by rewrite ?andb_false_r.
Qed.

(** X8: with an override a missing payload is no error: the run does not
    fail and the returned object is the final object over the parsed
    override, narrowed by the commit override; a commit override then always
    becomes the [commit_hash]. *)
Theorem X8_override_without_payload (inputs : Inputs) (ctx : Context)
    (env : ProcessEnv) (app : option BitriseAppDetails) :
  validateSelection inputs = None → payload ctx = None →
  truthy_string (branch_override inputs) || truthy_string (commit_override inputs)
    = true →
  let r := createBuildOptions urls inputs ctx env app in
  failed r = false ∧
  returned r =
    finalFields inputs (prepareEnvironmentVariables (env_vars_for_bitrise inputs) env)
      (narrowToCommit None (commit_override inputs)
         (parseOverride app (branch_override inputs))) ∧
  (commit_override inputs ≠ EmptyString →
     returned r !! "commit_hash" = Some (JStr (commit_override inputs))).
Proof.
  intros Hv Hp Ho r. subst r.
  rewrite (createBuildOptions_valid urls _ ctx env app Hv).
  rewrite resolveOptions_failed, Hp, Ho. simpl.
  rewrite (resolveOptions_override urls inputs ctx env app Ho).
  rewrite processOverrides_returned, defaultOptions_returned, Hp. simpl.
  assert (collapseToDefault urls app None (branch_override inputs)
            (parseOverride app (branch_override inputs))
          = parseOverride app (branch_override inputs)) as ->.
  { unfold collapseToDefault. by rewrite sameRefAsDefault_None. }
  split; [done|]. split; [done|].
  intros Hco. rewrite finalFields_lookup by done.
  rewrite narrowToCommit_other by done. by simplify_map_eq.
Qed.


Lemma get_union (a b : obj) (k : string) :
  get (a ∪ b) k = match a !! k with Some v => v | None => get b k end.
Proof.
  unfold get. rewrite lookup_union.
  destruct (a !! k), (b !! k); done.
Qed.

(** X10: the [base_repository_url] of the override transform.  Without an
    app repository URL it is undefined; with one, it is the app's URL
    whenever the comparison with the URL of the default options fails, and
    in every case it is the app's URL or that of the default options. *)
Theorem X10_override_repository_url (app : option BitriseAppDetails)
    (dflt : option obj) (bo co : string) :
  let url := get (returned (processOverrides urls app dflt bo co))
               "base_repository_url" in
  (app_repo_url app = None → url = undefined) ∧
  (∀ u, app_repo_url app = Some u →
        (urls u (get_opt dflt "base_repository_url") = false → url = JStr u) ∧
        (url = JStr u ∨ url = get_opt dflt "base_repository_url")).
Proof.
  intros url. subst url. rewrite processOverrides_returned.
  assert (∀ o : obj, get (narrowToCommit dflt co o) "base_repository_url"
                     = get o "base_repository_url") as Hn.
  { intros o. unfold narrowToCommit. destruct (_ && _); [|done].
    unfold get at 1. by simplify_map_eq. }
  rewrite Hn.
  assert (get (parseOverride app bo) "base_repository_url"
          = of_opt (app_repo_url app)) as Hparse.
  { unfold parseOverride, get. destruct (app_repo_url app);
      repeat case_match; by simplify_map_eq. }
  split.
  - intros Hu. rewrite collapseToDefault_no_url by done.
    by rewrite Hparse, Hu.
  - intros u Hu. unfold collapseToDefault. rewrite Hu.
    destruct (sameRefAsDefault _ _ _) eqn:Hs;
      [|rewrite Hparse, Hu; by split; [|left]].
    destruct (urls u _) eqn:Hsame;
      [|rewrite Hparse, Hu; by split; [|left]].
    split; [done|].
    rewrite get_union, Hparse, Hu.
    destruct dflt as [d|]; simpl; [|by left].
    unfold get. destruct (d !! "base_repository_url"); simpl; auto.
Qed.

(** X11: a branch override may be given with or without [refs/heads/]: for
    a non-empty name that does not itself start with [refs/heads/] or
    [refs/tags/], the override transform does the same on both forms. *)
Theorem X11_branch_prefix_is_optional (app : option BitriseAppDetails)
    (dflt : option obj) (name co : string) :
  name ≠ EmptyString →
  startsWith name "refs/heads/" = false → startsWith name "refs/tags/" = false →
  processOverrides urls app dflt ("refs/heads/" +:+ name) co =
    processOverrides urls app dflt name co.
Proof.
  intros Hne%truthy_string_true Hh Ht.
  assert (parseOverride app ("refs/heads/" +:+ name) = parseOverride app name) as Hp.
  { unfold parseOverride. rewrite startsWith_app, Hh, Ht, Hne.
    by assert (slice ("refs/heads/" +:+ name) 11 = name) as ->
      by apply (slice_app "refs/heads/"). }
  unfold processOverrides, collapseToDefault, sameRefAsDefault.
  by rewrite Hp, Hne.
Qed.

(** X12: an override of the other kind never collapses: a tag override on
    the push of a branch, and a branch override on the push of a tag, keep the
    parsed override (narrowed by the commit override) and take nothing of the
    event's commit lists, also when the names are the same. *)
Theorem X12_other_kind_never_collapses (app : option BitriseAppDetails)
    (ctx : Context) (p : Payload) (name co : string) :
  let base := returned (transformBasicEvent ctx p) in
  (startsWith (ref ctx) "refs/heads/" = true →
     returned (processOverrides urls app (Some base) ("refs/tags/" +:+ name) co) =
       narrowToCommit (Some base) co (parseOverride app ("refs/tags/" +:+ name))) ∧
  (startsWith (ref ctx) "refs/heads/" = false →
   startsWith name "refs/tags/" = false →
     returned (processOverrides urls app (Some base) ("refs/heads/" +:+ name) co) =
       narrowToCommit (Some base) co (parseOverride app ("refs/heads/" +:+ name))).
Proof.
  intros base.
  assert (∀ bo, sameRefAsDefault (parseOverride app bo) (Some base) bo = false →
            returned (processOverrides urls app (Some base) bo co) =
              narrowToCommit (Some base) co (parseOverride app bo)) as Hno.
  { intros bo Hs. rewrite processOverrides_returned.
    unfold collapseToDefault. by rewrite Hs. }
  split.
  - intros Hb. apply Hno. unfold sameRefAsDefault.
    assert (parseOverride app ("refs/tags/" +:+ name) !! "branch" = None) as Hpb.
    { unfold parseOverride. rewrite startsWith_app.
      destruct (app_repo_url app); by simplify_map_eq. }
    assert (base !! "tag" = None) as Hbt.
    { subst base. destruct (deleted p) eqn:Hd.
      - by rewrite transformBasicEvent_deleted.
      - rewrite transformBasicEvent_branch by done.
        rewrite basicFields_lookup_tag. by simplify_map_eq. }
    simpl. unfold get. rewrite Hpb, Hbt. simpl.
    destruct (default undefined (parseOverride app ("refs/tags/" +:+ name) !! "tag"));
      simpl; by rewrite ?andb_false_r.
  - intros Hb Hn. apply Hno. unfold sameRefAsDefault.
    assert (parseOverride app ("refs/heads/" +:+ name) !! "tag" = None) as Hpt.
    { unfold parseOverride. rewrite startsWith_app.
      destruct (app_repo_url app); by simplify_map_eq. }
    assert (base !! "branch" = None) as Hbb.
    { subst base. destruct (deleted p) eqn:Hd.
      - by rewrite transformBasicEvent_deleted.
      - destruct (transformBasicEvent_shape ctx p Hd)
          as (ms & ps & o & -> & [[? _]|(_ & _ & _ & [->| ->])]);
          [congruence| |]; rewrite basicFields_lookup_branch; by simplify_map_eq. }
    simpl. unfold get. rewrite Hpt, Hbb. simpl.
    destruct (default undefined (parseOverride app ("refs/heads/" +:+ name) !! "branch"));
      simpl; by rewrite ?andb_false_r, ?orb_false_r.
Qed.

End OverrideFacts.

(** ** The allow-list of environment variables *)

Lemma rev_app_app (s1 s2 s3 : string) :
  String.rev_app (s1 +:+ s2) s3 = String.rev_app s2 (String.rev_app s1 s3).
Proof.
  revert s3. induction s1 as [|a s1 IH]; intros s3; [done|].
  change (String.rev_app (s1 +:+ s2) (String a s3)
          = String.rev_app s2 (String.rev_app s1 (String a s3))).
  apply IH.
Qed.

Lemma rev_app_rev_app (s1 s2 s3 : string) :
  String.rev_app (String.rev_app s1 s2) s3 = String.rev_app s2 (s1 +:+ s3).
Proof.
  revert s2 s3. induction s1 as [|a s1 IH]; intros s2 s3; [done|].
  simpl. rewrite IH. done.
Qed.

Lemma string_app_assoc (s1 s2 s3 : string) :
  (s1 +:+ s2) +:+ s3 = s1 +:+ (s2 +:+ s3).
Proof.
  induction s1 as [|a s1 IH]; [done|].
  change (String a ((s1 +:+ s2) +:+ s3) = String a (s1 +:+ (s2 +:+ s3))).
  by rewrite IH.
Qed.

Lemma rev_app_spec (s1 s2 : string) :
  String.rev_app s1 s2 = String.rev s1 +:+ s2.
Proof.
  unfold String.rev. revert s2.
  induction s1 as [|a s1 IH]; intros s2; [done|].
  simpl. rewrite IH, (IH (String a "")).
  by rewrite string_app_assoc.
Qed.

Lemma string_rev_involutive (s : string) : String.rev (String.rev s) = s.
Proof.
  unfold String.rev. rewrite rev_app_rev_app. simpl.
  induction s as [|a s IH]; [done|].
  change (String a (s +:+ "") = String a s). by rewrite IH.
Qed.

Lemma string_rev_app (s1 s2 : string) :
  String.rev (s1 +:+ s2) = String.rev s2 +:+ String.rev s1.
Proof.
  unfold String.rev at 1. rewrite rev_app_app.
  by rewrite rev_app_spec.
Qed.

(** ** Trimming *)

Lemma string_length_ind (P : string → Prop) :
  (∀ s, (∀ t, String.length t < String.length s → P t) → P s) → ∀ s, P s.
Proof.
  intros step s. remember (String.length s) as n eqn:Hn. revert s Hn.
  induction n as [n IH] using lt_wf_ind. intros s ->.
  apply step. intros t Ht. by apply (IH _ Ht).
Qed.

(** [trimWith] drops a prefix. *)
Lemma trimWith_suffix ws (s : string) : ∃ pre, s = pre +:+ trimWith ws s.
Proof.
  induction s as [s IH] using string_length_ind.
  destruct s as [|a s1]; [by exists EmptyString|]. simpl.
  destruct (ws [N_of_ascii a]).
  { destruct (IH s1) as [pre Hpre]; [simpl; lia|].
    exists (String a pre). rewrite Hpre at 1. reflexivity. }
  destruct s1 as [|b s2]; [by exists EmptyString|].
  destruct (ws [N_of_ascii a; N_of_ascii b]).
  { destruct (IH s2) as [pre Hpre]; [simpl; lia|].
    exists (String a (String b pre)). rewrite Hpre at 1. reflexivity. }
  destruct s2 as [|c s3]; [by exists EmptyString|].
  destruct (ws [N_of_ascii a; N_of_ascii b; N_of_ascii c]);
    [|by exists EmptyString].
  destruct (IH s3) as [pre Hpre]; [simpl; lia|].
  exists (String a (String b (String c pre))). rewrite Hpre at 1. reflexivity.
Qed.

Lemma trimWith_idemp ws (s : string) :
  trimWith ws (trimWith ws s) = trimWith ws s.
Proof.
  induction s as [s IH] using string_length_ind.
  destruct s as [|a s1]; [done|]. simpl.
  destruct (ws [N_of_ascii a]) eqn:Ha; [apply IH; simpl; lia|].
  destruct s1 as [|b s2]; [simpl; by rewrite Ha|].
  destruct (ws [N_of_ascii a; N_of_ascii b]) eqn:Hb; [apply IH; simpl; lia|].
  destruct s2 as [|c s3]; [simpl; by rewrite Ha, Hb|].
  destruct (ws [N_of_ascii a; N_of_ascii b; N_of_ascii c]) eqn:Hc;
    [apply IH; simpl; lia|].
  simpl. by rewrite Ha, Hb, Hc.
Qed.

Lemma string_length_app (s t : string) :
  String.length (s +:+ t) = String.length s + String.length t.
Proof.
  induction s as [|a s IH]; [done|].
  change (S (String.length (s +:+ t)) = S (String.length s + String.length t)).
  by rewrite IH.
Qed.

Lemma trimWith_length ws (s : string) :
  String.length (trimWith ws s) ≤ String.length s.
Proof.
  destruct (trimWith_suffix ws s) as [pre Hpre].
  rewrite Hpre at 2. rewrite string_length_app. lia.
Qed.

Lemma trimWith_fixed ws (s : string) :
  trimWith ws s = s ↔ startsWithSpace ws s = false.
Proof.
  split.
  - intros Hs.
    destruct s as [|a s1]; [done|]. simpl in *.
    destruct (ws [N_of_ascii a]).
    { pose proof (trimWith_length ws s1) as Hl. rewrite Hs in Hl.
      simpl in Hl. lia. }
    destruct s1 as [|b s2]; [done|].
    destruct (ws [N_of_ascii a; N_of_ascii b]).
    { pose proof (trimWith_length ws s2) as Hl. rewrite Hs in Hl.
      simpl in Hl. lia. }
    destruct s2 as [|c s3]; [done|].
    destruct (ws [N_of_ascii a; N_of_ascii b; N_of_ascii c]); [|done].
    pose proof (trimWith_length ws s3) as Hl. rewrite Hs in Hl.
    simpl in Hl. lia.
  - destruct s as [|a [|b [|c s3]]]; simpl; try done.
    + by intros ->%orb_false_iff%proj1.
    + intros [-> [-> _]%orb_false_iff]%orb_false_iff. done.
    + intros [-> [-> ->]%orb_false_iff]%orb_false_iff. done.
Qed.

(** A string that starts with white space still does when it is extended. *)
Lemma startsWithSpace_app ws (s t : string) :
  startsWithSpace ws s = true → startsWithSpace ws (s +:+ t) = true.
Proof.
  destruct s as [|a [|b [|c s3]]]; simpl; try done.
  - rewrite orb_false_r. intros ->. done.
  - rewrite orb_false_r. intros [-> | ->]%orb_true_iff; [done|].
    rewrite orb_true_l. apply orb_true_r.
Qed.

Lemma trimStart_fixed (s : string) :
  trimStart s = s ↔ startsWithSpace isWhiteSpace s = false.
Proof. apply trimWith_fixed. Qed.

Lemma trimEnd_fixed (s : string) :
  trimEnd s = s ↔
  startsWithSpace (λ bytes, isWhiteSpace (reverse bytes)) (String.rev s) = false.
Proof.
  unfold trimEnd. rewrite <- trimWith_fixed. split.
  - intros H. apply (f_equal String.rev) in H.
    by rewrite string_rev_involutive in H.
  - intros ->. apply string_rev_involutive.
Qed.

(** The result of [trim] has no white space left at either end. *)
Lemma trim_fixed_start (s : string) : trimStart (trim s) = trim s.
Proof.
  apply trimStart_fixed.
  destruct (startsWithSpace isWhiteSpace (trim s)) eqn:Hsp; [|done].
  unfold trim, trimEnd in *.
  destruct (trimWith_suffix (λ bytes, isWhiteSpace (reverse bytes))
              (String.rev (trimStart s))) as [pre Hpre].
  apply (f_equal String.rev) in Hpre.
  rewrite string_rev_involutive, string_rev_app in Hpre.
  apply (startsWithSpace_app _ _ (String.rev pre)) in Hsp.
  rewrite <- Hpre in Hsp.
  pose proof (trimWith_idemp isWhiteSpace s) as Hid.
  apply trimWith_fixed in Hid. unfold trimStart in Hsp. congruence.
Qed.

Lemma trim_fixed_end (s : string) : trimEnd (trim s) = trim s.
Proof.
  unfold trim. unfold trimEnd at 1 2.
  by rewrite string_rev_involutive, trimWith_idemp.
Qed.

(** The characters of a string. *)
Lemma chars_rev_app (c : ascii) (s1 s2 : string) :
  c ∈ String.list_ascii_of_string (String.rev_app s1 s2) ↔
  c ∈ String.list_ascii_of_string s1 ∨ c ∈ String.list_ascii_of_string s2.
Proof.
  revert s2. induction s1 as [|a s1 IH]; intros s2; simpl.
  - rewrite elem_of_nil. tauto.
  - rewrite IH. simpl. rewrite !elem_of_cons. tauto.
Qed.

Lemma chars_app (c : ascii) (s t : string) :
  c ∈ String.list_ascii_of_string (s +:+ t) ↔
  c ∈ String.list_ascii_of_string s ∨ c ∈ String.list_ascii_of_string t.
Proof.
  induction s as [|a s IH].
  - simpl. rewrite elem_of_nil. tauto.
  - change (c ∈ a :: String.list_ascii_of_string (s +:+ t) ↔
            c ∈ a :: String.list_ascii_of_string s ∨
            c ∈ String.list_ascii_of_string t).
    rewrite !elem_of_cons, IH. tauto.
Qed.

Lemma chars_rev (c : ascii) (s : string) :
  c ∈ String.list_ascii_of_string (String.rev s) ↔
  c ∈ String.list_ascii_of_string s.
Proof.
  unfold String.rev. rewrite chars_rev_app. simpl. rewrite elem_of_nil. tauto.
Qed.

Lemma chars_trimWith ws (c : ascii) (s : string) :
  c ∈ String.list_ascii_of_string (trimWith ws s) →
  c ∈ String.list_ascii_of_string s.
Proof.
  intros H. destruct (trimWith_suffix ws s) as [pre Hpre].
  rewrite Hpre. apply chars_app. by right.
Qed.

Lemma chars_trim (c : ascii) (s : string) :
  c ∈ String.list_ascii_of_string (trim s) → c ∈ String.list_ascii_of_string s.
Proof.
  unfold trim, trimEnd. rewrite chars_rev.
  intros H%chars_trimWith. rewrite chars_rev in H.
  by apply chars_trimWith in H.
Qed.

(** The pieces of a split do not hold the separator. *)
Lemma chars_split (sep : ascii) (s w : string) :
  w ∈ split sep s → sep ∉ String.list_ascii_of_string w.
Proof.
  revert w. induction s as [|c s IH]; intros w; simpl.
  - intros ->%list_elem_of_singleton. simpl. apply not_elem_of_nil.
  - case_bool_decide as Hc.
    + intros [-> | H]%elem_of_cons; [apply not_elem_of_nil|by apply IH].
    + destruct (split sep s) as [|w0 ws] eqn:Hs.
      * intros ->%list_elem_of_singleton. simpl.
        intros [<- | H]%elem_of_cons; [done|by apply elem_of_nil in H].
      * intros [-> | H]%elem_of_cons.
        -- simpl. intros [<- | H]%elem_of_cons; [done|].
           by apply (IH w0); [apply list_elem_of_here|].
        -- apply IH. by apply list_elem_of_further.
Qed.

(** X13: every name of the allow-list is non-empty, holds no comma, and has
    no white space at its start or at its end, in the sense of [trimStart] and
    [trimEnd]; so a variable whose name is empty or has a comma or surrounding
    white space is never passed through. *)
Theorem X13_allow_list_names (input name : string) :
  name ∈ envPassThrough input →
  name ≠ EmptyString ∧
  ("," % char ∉ String.list_ascii_of_string name) ∧
  trimStart name = name ∧
  trimEnd name = name.
Proof.
  unfold envPassThrough.
  intros [Hne (w & -> & Hw)%list_elem_of_fmap]%list_elem_of_filter.
  split; [done|]. split; [|split].
  - intros Hc%chars_trim. by apply (chars_split _ _ _ Hw).
  - apply trim_fixed_start.
  - apply trim_fixed_end.
Qed.

(** X14: the passed-through entries depend on the allow-list only through
    the set of its names: two inputs that list the same names, in any order
    and with any repetition, pass the same entries in the same order; and an
    input without names passes nothing. *)
Theorem X14_allow_list_is_a_set (input input' : string) (env : ProcessEnv) :
  ((∀ name, name ∈ envPassThrough input ↔ name ∈ envPassThrough input') →
     prepareEnvironmentVariables input env = prepareEnvironmentVariables input' env) ∧
  (envPassThrough input = [] → prepareEnvironmentVariables input env = []).
Proof.
  unfold prepareEnvironmentVariables. split.
  - intros Hsame. f_equal. apply list_filter_iff. intros [k v]. apply Hsame.
  - intros ->.
    assert (filter (λ e : string * option string, e.1 ∈ @nil string) env = [])
      as ->; [|done].
    induction env as [|[k v] env IH]; [done|].
    rewrite filter_cons_False; [exact IH|]. simpl. apply not_elem_of_nil.
Qed.

(** ** Merge refs *)

Lemma string_app_inj_r (s1 s2 t : string) : s1 +:+ t = s2 +:+ t → s1 = s2.
Proof.
  intros H. apply (f_equal String.rev) in H.
  rewrite !string_rev_app in H. apply (inj _) in H.
  apply (f_equal String.rev) in H. by rewrite !string_rev_involutive in H.
Qed.

Lemma number_to_string_inj (n m : N) :
  number_to_string n = number_to_string m → n = m.
Proof.
  unfold number_to_string. intros H.
  apply DecimalN.Unsigned.to_uint_inj.
  apply (f_equal NilEmpty.uint_of_string) in H.
  rewrite !NilEmpty.usu in H. by injection H.
Qed.

(** X15: the pull-request number can be read back from the merge ref: two
    pull requests have the same [pull/<number>/merge] only when they have the
    same number. *)
Theorem X15_merge_ref_injective (pr pr' : PullRequest) :
  mergeRef pr = mergeRef pr' → pr_number pr = pr_number pr'.
Proof.
  unfold mergeRef. intros H. apply (inj _) in H.
  apply string_app_inj_r in H. by apply number_to_string_inj.
Qed.

(** ** Ready state, summary line and an override that changes nothing *)

Section Composition.

Variable urls : string → any → bool.

(** X16: on a pull request that is not unmergeable, the ready state and the
    draft entry agree in one direction only: with the state [draft] the
    environments end with the draft entry, with the state [ready_for_review]
    they are the passed-through variables alone. *)
Theorem X16_ready_state_and_draft_entry (inputs : Inputs) (ctx : Context)
    (env : ProcessEnv) (app : option BitriseAppDetails) (p : Payload)
    (pr : PullRequest) :
  validateSelection inputs = None →
  payload ctx = Some p → pull_request p = Some pr →
  branch_override inputs = EmptyString → commit_override inputs = EmptyString →
  pr_mergeable pr ≠ Some false →
  let o := returned (createBuildOptions urls inputs ctx env app) in
  let passed := prepareEnvironmentVariables (env_vars_for_bitrise inputs) env in
  o !! "pull_request_ready_state" = Some (JStr (getPrReadyState pr)) ∧
  (getPrReadyState pr = "draft" →
     o !! "environments" = Some (JEnvs (passed ++ [draftEnvironment]))) ∧
  (getPrReadyState pr = "ready_for_review" →
     o !! "environments" = Some (JEnvs passed)).
Proof.
  intros Hv Hp Hpr Hb Hc Hm o passed. subst o passed.
  rewrite (createBuildOptions_valid urls _ ctx env app Hv).
  destruct (resolveOptions_pull_request urls inputs ctx env app p pr
              Hp Hpr Hb Hc) as [-> _].
  rewrite finalFields_environments, finalFields_lookup by done.
  rewrite transformPullRequestEvent_returned by done.
  split; [unfold pullRequestObject; by simplify_map_eq|].
  unfold getPrReadyState.
  case_bool_decide; [by split|].
  destruct (pr_draft pr); by split.
Qed.

Lemma finish_logged inputs app (o o' : obj) envs :
  InfoSourceOptions o' ∈ logged (finish urls inputs app o envs) → o' = o.
Proof.
  unfold finish. rewrite !logged_bind. simpl.
  intros [Hin|Hin]%elem_of_app.
  - destruct (app_repo_url app); [destruct (negb _)|]; simpl in Hin;
      try (by apply elem_of_nil in Hin).
    by apply list_elem_of_singleton in Hin.
  - apply list_elem_of_singleton in Hin. by injection Hin.
Qed.

Lemma transformPullRequestEvent_dom pr k :
  k ∈ [ "workflow_id"; "pipeline_id"; "skip_git_status_report"; "environments" ] →
  returned (transformPullRequestEvent pr) !! k = None.
Proof.
  intros Hk.
  destruct (decide (pr_mergeable pr = Some false)) as [Hm|Hm].
  { by rewrite transformPullRequestEvent_unmergeable. }
  rewrite transformPullRequestEvent_returned by done.
  unfold pullRequestObject.
  repeat (apply elem_of_cons in Hk as [-> | Hk];
          [destruct (pr_mergeable pr); by simplify_map_eq|]).
  by apply elem_of_nil in Hk.
Qed.

Lemma defaultOptions_no_summary ctx (o : obj) :
  InfoSourceOptions o ∉ logged (defaultOptions ctx).
Proof.
  unfold defaultOptions. destruct (payload ctx) as [p|]; [|apply not_elem_of_nil].
  rewrite logged_bind. unfold transformBasicEvent.
  destruct (deleted p).
  - intros [Hin|Hin]%elem_of_app; [|by apply elem_of_nil in Hin].
    by apply list_elem_of_singleton in Hin.
  - repeat case_match; intros [Hin|Hin]%elem_of_app; by apply elem_of_nil in Hin.
Qed.

Lemma transformPullRequestEvent_no_summary pr (o : obj) :
  InfoSourceOptions o ∉ logged (transformPullRequestEvent pr).
Proof.
  destruct (decide (pr_mergeable pr = Some false)) as [Hm|Hm].
  - rewrite transformPullRequestEvent_unmergeable by done.
    by intros H%list_elem_of_singleton.
  - unfold transformPullRequestEvent.
    destruct (pr_mergeable pr) as [[]|]; [|done|]; apply not_elem_of_nil.
Qed.

(** X17: the summary line shows the options before the final fields are
    added: the object it logs never has [workflow_id], [pipeline_id],
    [skip_git_status_report] or [environments], so the values of the
    passed-through variables are not logged. *)
Theorem X17_summary_line_without_final_fields (inputs : Inputs) (ctx : Context)
    (env : ProcessEnv) (app : option BitriseAppDetails) (o : obj) (k : string) :
  InfoSourceOptions o ∈ logged (createBuildOptions urls inputs ctx env app) →
  k ∈ [ "workflow_id"; "pipeline_id"; "skip_git_status_report"; "environments" ] →
  o !! k = None.
Proof.
  intros Hlog Hk.
  assert (k ∉ sourceFields) as Hsrc.
  { unfold sourceFields.
    repeat (apply elem_of_cons in Hk as [-> | Hk]; [set_solver|]).
    by apply elem_of_nil in Hk. }
  unfold createBuildOptions in Hlog.
  destruct (validateSelection inputs).
  { by apply list_elem_of_singleton in Hlog. }
  unfold resolveOptions in Hlog.
  rewrite !logged_bind, ?returned_bind in Hlog.
  apply elem_of_app in Hlog as [Hlog|Hlog].
  { by apply list_elem_of_singleton in Hlog. }
  apply elem_of_app in Hlog as [Hlog|Hlog].
  { by apply defaultOptions_no_summary in Hlog. }
  destruct (truthy_string (branch_override inputs) || _).
  { rewrite logged_bind, processOverrides_logged in Hlog.
    apply elem_of_app in Hlog as [Hlog|Hlog].
    { destruct app; [by apply elem_of_nil in Hlog|].
      by apply list_elem_of_singleton in Hlog. }
    apply finish_logged in Hlog as ->.
    apply not_elem_of_dom.
    pose proof (processOverrides_dom urls app (returned (defaultOptions ctx))
                  (branch_override inputs) (commit_override inputs)
                  (defaultOptions_dom ctx)).
    set_solver. }
  destruct (payload ctx ≫= pull_request) as [pr|].
  { rewrite logged_bind in Hlog.
    apply elem_of_app in Hlog as [Hlog|Hlog].
    { by apply transformPullRequestEvent_no_summary in Hlog. }
    apply finish_logged in Hlog as ->.
    by apply transformPullRequestEvent_dom. }
  destruct (returned (defaultOptions ctx)) as [d|] eqn:Hd.
  - apply finish_logged in Hlog as ->.
    apply not_elem_of_dom.
    pose proof (defaultOptions_dom ctx d Hd). set_solver.
  - rewrite logged_bind in Hlog.
    apply elem_of_app in Hlog as [Hlog|Hlog];
      [by apply list_elem_of_singleton in Hlog|by apply elem_of_nil in Hlog].
Qed.

(** X18: giving the ref of the push itself as the branch override changes
    nothing: on a push that is no deletion, with an app repository URL that
    names the repository of the event and a commit override that is absent or
    is the pushed commit, [createBuildOptions] returns the same object as
    without overrides. *)
Theorem X18_override_with_the_pushed_ref (inputs : Inputs) (ctx : Context)
    (env : ProcessEnv) (app : option BitriseAppDetails) (p : Payload)
    (name u : string) :
  validateSelection inputs = None →
  payload ctx = Some p → pull_request p = None → deleted p = false →
  ref ctx = "refs/heads/" +:+ name ∨ ref ctx = "refs/tags/" +:+ name →
  name ≠ EmptyString →
  branch_override inputs = ref ctx →
  commit_override inputs = EmptyString ∨ commit_override inputs = sha ctx →
  app_repo_url app = Some u →
  urls u (of_opt (getRepositoryURL (repository p))) = true →
  returned (createBuildOptions urls inputs ctx env app) =
    returned (createBuildOptions urls (withoutOverrides inputs) ctx env app).
Proof.
  intros Hv Hp Hpr Hd Href Hname Hbo Hco Hu Hsame.
  assert (validateSelection (withoutOverrides inputs) = None) as Hv' by exact Hv.
  rewrite (createBuildOptions_valid urls _ ctx env app Hv).
  rewrite (createBuildOptions_valid urls _ ctx env app Hv').
  destruct (resolveOptions_basic urls (withoutOverrides inputs) ctx env app p
              Hp Hpr eq_refl eq_refl) as [-> _].
  assert (truthy_string (ref ctx) = true) as Hrt
    by (by destruct Href as [-> | ->]).
  rewrite resolveOptions_override by (by rewrite Hbo, Hrt).
  rewrite processOverrides_returned, defaultOptions_returned, Hp, Hbo.
  change ((λ p0, returned (transformBasicEvent ctx p0)) <$> Some p)
    with (Some (returned (transformBasicEvent ctx p))).
  set (base := returned (transformBasicEvent ctx p)).
  enough (narrowToCommit (Some base) (commit_override inputs)
            (collapseToDefault urls app (Some base) (ref ctx)
               (parseOverride app (ref ctx))) = base) as -> by reflexivity.
  assert (get base "commit_hash" = JStr (sha ctx) ∧
          get base "base_repository_url" = of_opt (getRepositoryURL (repository p)) ∧
          "base_repository_url" ∈ dom base) as (Hhash & Hurl & Hdom).
  { subst base.
    destruct (transformBasicEvent_shape ctx p Hd) as (ms & ps & o & -> & _).
    rewrite basicFields_dom. unfold basicFields, get.
    split_and!; [by simplify_map_eq..|set_solver]. }
  assert (narrowToCommit (Some base) (commit_override inputs) base = base) as Hn.
  { destruct Hco as [-> | ->]; [done|].
    apply narrowToCommit_same. simpl. by rewrite Hhash. }
  assert (collapseToDefault urls app (Some base) (ref ctx)
            (parseOverride app (ref ctx)) = base) as ->; [|exact Hn].
  pose proof (parseOverride_dom app (ref ctx)) as Hpdom.
  unfold collapseToDefault, sameRefAsDefault. rewrite Hrt, Hu. simpl.
  rewrite Hurl, Hsame.
  destruct Href as [Href|Href].
  - assert (startsWith (ref ctx) "refs/heads/" = true) as Hb
      by (rewrite Href; apply startsWith_app).
    assert (slice (ref ctx) 11 = name) as Hs
      by (rewrite Href; apply (slice_app "refs/heads/")).
    assert (get (parseOverride app (ref ctx)) "branch" = JStr name ∧
            parseOverride app (ref ctx) !! "tag" = None) as [Hpb Hpt].
    { unfold parseOverride, get. rewrite Hb, Hs, Hu. by simplify_map_eq. }
    assert (base !! "branch" = Some (JStr name)) as Hbb.
    { subst base. rewrite transformBasicEvent_branch by done.
      rewrite basicFields_lookup_branch, Hs. by simplify_map_eq. }
    rewrite Hpb. unfold get at 1. rewrite Hbb. simpl.
    destruct name as [|c name]; [done|]. simpl.
    rewrite bool_decide_eq_true_2 by done. simpl.
    apply union_absorb. intros k Hk.
    destruct (decide (k = "tag")) as [->|];
      [apply elem_of_dom in Hk as [? Hk]; congruence|].
    destruct (decide (k = "branch")) as [->|]; [by apply elem_of_dom|].
    set_solver.
  - assert (startsWith (ref ctx) "refs/heads/" = false) as Hb
      by (by rewrite Href).
    assert (startsWith (ref ctx) "refs/tags/" = true) as Ht
      by (rewrite Href; apply startsWith_app).
    assert (slice (ref ctx) 10 = name) as Hs
      by (rewrite Href; apply (slice_app "refs/tags/")).
    assert (get (parseOverride app (ref ctx)) "tag" = JStr name ∧
            parseOverride app (ref ctx) !! "branch" = None) as [Hpt Hpb].
    { unfold parseOverride, get. rewrite Hb, Ht, Hs, Hu. by simplify_map_eq. }
    assert (base !! "tag" = Some (JStr name)) as Hbt.
    { subst base. rewrite transformBasicEvent_tag by done.
      rewrite basicFields_lookup_tag, Hs. by simplify_map_eq. }
    assert (get (parseOverride app (ref ctx)) "branch" = undefined) as Hpb'
      by (unfold get; by rewrite Hpb).
    assert (get base "tag" = JStr name) as Hbt'
      by (unfold get; by rewrite Hbt).
    rewrite Hpt, Hpb', Hbt'. simpl.
    destruct name as [|c name]; [done|]. simpl.
    rewrite bool_decide_eq_true_2 by done. simpl.
    apply union_absorb. intros k Hk.
    destruct (decide (k = "branch")) as [->|];
      [apply elem_of_dom in Hk as [? Hk]; congruence|].
    destruct (decide (k = "tag")) as [->|]; [by apply elem_of_dom|].
    set_solver.
Qed.

End Composition.

(** ** Further runs on the example events *)

(** The push to [main] with its one commit. *)
Lemma X1_witness :
  deleted pushPayload = false ∧
  startsWith (ref pushToMain) "refs/heads/" = true ∧
  ∃ messages paths,
    returned (transformBasicEvent pushToMain pushPayload) !! "commit_messages"
      = Some (JMessages messages) ∧
    returned (transformBasicEvent pushToMain pushPayload) !! "commit_paths"
      = Some (JPaths paths) ∧
    length messages = 1 ∧ length paths = 1.
Proof.
  split; [reflexivity|]. split; [reflexivity|].
  destruct (X1_commit_lists_aligned pushToMain pushPayload eq_refl eq_refl)
    as (ms & ps & Hm & Hp & Hlm & Hlp & _).
  exists ms, ps. split; [exact Hm|]. split; [exact Hp|].
  split; [exact Hlm|exact Hlp].
Defined.

Lemma X2_witness :
  returned (transformBasicEvent pushToMain pushPayload) !! "branch"
    = Some (JStr "main") ∧
  ref pushToMain = "refs/heads/" +:+ "main" ∧
  ref pushOfTag = "refs/tags/" +:+ "v1.0".
Proof.
  assert (returned (transformBasicEvent pushToMain pushPayload) !! "branch"
            = Some (JStr "main")) as Hb by (vm_compute; reflexivity).
  assert (returned (transformBasicEvent pushOfTag tagPayload) !! "tag"
            = Some (JStr "v1.0")) as Ht by (vm_compute; reflexivity).
  split; [exact Hb|]. split.
  - exact (proj1 (X2_ref_read_back pushToMain pushPayload "main") Hb).
  - exact (proj2 (X2_ref_read_back pushOfTag tagPayload "v1.0") Ht).
Defined.

(** The deletion of [main] fails also under a branch override. *)
Lemma X3_witness :
  failed (createBuildOptions sameUrl (withOverrides "release" EmptyString)
            deletionOfMain exampleEnv exampleApp) = true.
Proof.
  apply (proj2 (X3_failure_cases sameUrl (withOverrides "release" EmptyString)
                  deletionOfMain exampleEnv exampleApp)).
  right. left. exists deletedPayload. split; reflexivity.
Defined.


(** The draft pull request 42 with the variables [A] and [B] passed. *)
Lemma X5_witness :
  validateSelection passingAB = None ∧
  returned (createBuildOptions sameUrl passingAB (pullRequestEvent (Some true))
              exampleEnv None) !! "environments" =
    Some (JEnvs [ {| mapped_to := "A"; value := "1"; is_expand := false |};
                  {| mapped_to := "B"; value := "2"; is_expand := false |};
                  draftEnvironment ]).
Proof.
  split; [reflexivity|].
  exact (X5_draft_entry_last sameUrl passingAB (pullRequestEvent (Some true))
           exampleEnv None _ eq_refl eq_refl eq_refl eq_refl).
Defined.

Lemma X6_witness :
  let o := returned (createBuildOptions sameUrl workflowOnly
                       (pullRequestEvent (Some true)) exampleEnv None) in
  validateSelection workflowOnly = None ∧
  o !! "tag" = None ∧ o !! "commit_messages" = None ∧
  o !! "head_repository_url" = o !! "pull_request_repository_url" ∧
  o !! "pull_request_id" = Some (JNum 42).
Proof.
  destruct (X6_pull_request_fields sameUrl workflowOnly
              (pullRequestEvent (Some true)) exampleEnv None _
              (examplePullRequest (Some true))
              eq_refl eq_refl eq_refl eq_refl eq_refl
              ltac:(discriminate))
    as (_ & Ht & Hm & _ & Hr & Hi).
  split; [reflexivity|]. split; [exact Ht|]. split; [exact Hm|].
  split; [exact Hr|exact Hi].
Defined.

Lemma X7_witness :
  listen pipelineListening = true ∧
  createBuildOptions sameUrl pipelineListening pushToMain exampleEnv None =
    (∅, [SetFailed "Listen option is not supported with bitrise-pipeline"]).
Proof.
  split; [reflexivity|].
  exact (X7_listen_rejects_pipeline sameUrl pipelineListening pushToMain
           exampleEnv None eq_refl ltac:(discriminate)).
Defined.

(** The overrides [release] and [77aa11b] without payload. *)
Lemma X8_witness :
  let r := createBuildOptions sameUrl (withOverrides "release" "77aa11b") noPayload
             exampleEnv None in
  payload noPayload = None ∧ failed r = false ∧
  returned r !! "commit_hash" = Some (JStr "77aa11b").
Proof.
  destruct (X8_override_without_payload sameUrl (withOverrides "release" "77aa11b")
              noPayload exampleEnv None eq_refl eq_refl eq_refl)
    as (Hf & _ & Hc).
  split; [reflexivity|]. split; [exact Hf|].
  apply Hc. discriminate.
Defined.


Lemma X10_witness :
  app_repo_url None = None ∧
  get (returned (processOverrides sameUrl None None "release" EmptyString))
    "base_repository_url" = undefined ∧
  get (returned (processOverrides (λ _ _, false) exampleApp None "release"
                   EmptyString))
    "base_repository_url" = JStr "https://github.com/octo/app.git".
Proof.
  split; [reflexivity|]. split.
  - exact (proj1 (X10_override_repository_url sameUrl None None "release"
                    EmptyString) eq_refl).
  - exact (proj1 (proj2 (X10_override_repository_url (λ _ _, false) exampleApp
                           None "release" EmptyString)
                    "https://github.com/octo/app.git" eq_refl) eq_refl).
Defined.

Lemma X11_witness :
  processOverrides sameUrl exampleApp None ("refs/heads/" +:+ "release") "77aa11b" =
    processOverrides sameUrl exampleApp None "release" "77aa11b".
Proof.
  apply (X11_branch_prefix_is_optional sameUrl exampleApp None "release" "77aa11b");
    [discriminate|reflexivity|reflexivity].
Defined.

(** The tag override [refs/tags/main] on the push to the branch [main]. *)
Lemma X12_witness :
  let base := returned (transformBasicEvent pushToMain pushPayload) in
  startsWith (ref pushToMain) "refs/heads/" = true ∧
  returned (processOverrides sameUrl exampleApp (Some base)
              ("refs/tags/" +:+ "main") EmptyString) =
    narrowToCommit (Some base) EmptyString
      (parseOverride exampleApp ("refs/tags/" +:+ "main")).
Proof.
  split; [reflexivity|].
  exact (proj1 (X12_other_kind_never_collapses sameUrl exampleApp pushToMain
                  pushPayload "main" EmptyString) eq_refl).
Defined.

(** The input [ B , A,,] and, with a no-break space after [A] and a line
    separator before [B], the input that lists the same two names. *)
Lemma X13_witness :
  "B" ∈ envPassThrough " B , A,," ∧
  trimStart "B" = "B" ∧ trimEnd "B" = "B" ∧
  envPassThrough
    (String "A" (String "194" (String "160"
       (String "," (String "226" (String "128" (String "168" "B"))))))) =
    ["A"; "B"].
Proof.
  assert ("B" ∈ envPassThrough " B , A,,") as Hin.
  { apply (bool_decide_unpack _). vm_compute. exact I. }
  destruct (X13_allow_list_names " B , A,," "B" Hin) as (_ & _ & Hs & He).
  split; [exact Hin|]. split; [exact Hs|]. split; [exact He|reflexivity].
Defined.

Lemma X14_witness :
  prepareEnvironmentVariables "A,B" exampleEnv =
    prepareEnvironmentVariables " B , A, B" exampleEnv ∧
  prepareEnvironmentVariables " , ," exampleEnv = [].
Proof.
  split.
  - apply (proj1 (X14_allow_list_is_a_set "A,B" " B , A, B" exampleEnv)).
    intros name.
    change (envPassThrough "A,B") with ["A"; "B"].
    change (envPassThrough " B , A, B") with ["B"; "A"; "B"].
    rewrite !elem_of_cons, !elem_of_nil. tauto.
  - exact (proj2 (X14_allow_list_is_a_set " , ," " , ," exampleEnv) eq_refl).
Defined.

Lemma X15_witness :
  mergeRef (examplePullRequest (Some true)) = mergeRef (examplePullRequest None) ∧
  pr_number (examplePullRequest (Some true)) = pr_number (examplePullRequest None).
Proof.
  split; [reflexivity|].
  exact (X15_merge_ref_injective (examplePullRequest (Some true))
           (examplePullRequest None) eq_refl).
Defined.

Lemma X16_witness :
  let o := returned (createBuildOptions sameUrl workflowOnly
                       (pullRequestEvent (Some true)) exampleEnv None) in
  getPrReadyState (examplePullRequest (Some true)) = "draft" ∧
  o !! "pull_request_ready_state" = Some (JStr "draft") ∧
  o !! "environments" = Some (JEnvs [draftEnvironment]).
Proof.
  destruct (X16_ready_state_and_draft_entry sameUrl workflowOnly
              (pullRequestEvent (Some true)) exampleEnv None _
              (examplePullRequest (Some true))
              eq_refl eq_refl eq_refl eq_refl eq_refl ltac:(discriminate))
    as (Hs & Hd & _).
  split; [reflexivity|]. split; [exact Hs|exact (Hd eq_refl)].
Defined.

Lemma X17_witness :
  let r := createBuildOptions sameUrl passingAB pushToMain exampleEnv None in
  InfoSourceOptions (returned (transformBasicEvent pushToMain pushPayload))
    ∈ logged r ∧
  returned (transformBasicEvent pushToMain pushPayload) !! "environments" = None.
Proof.
  assert (InfoSourceOptions (returned (transformBasicEvent pushToMain pushPayload))
            ∈ logged (createBuildOptions sameUrl passingAB pushToMain exampleEnv None))
    as Hin.
  { apply list_elem_of_further, list_elem_of_here. }
  split; [exact Hin|].
  apply (X17_summary_line_without_final_fields sameUrl passingAB pushToMain
           exampleEnv None _ "environments" Hin).
  apply list_elem_of_further, list_elem_of_further, list_elem_of_further,
    list_elem_of_here.
Defined.

(** The ref of the push to [main] as branch override. *)
Lemma X18_witness :
  branch_override (withOverrides "refs/heads/main" EmptyString) = ref pushToMain ∧
  returned (createBuildOptions sameUrl (withOverrides "refs/heads/main" EmptyString)
              pushToMain exampleEnv exampleApp) =
    returned (createBuildOptions sameUrl workflowOnly pushToMain exampleEnv exampleApp).
Proof.
  split; [reflexivity|].
  apply (X18_override_with_the_pushed_ref sameUrl
           (withOverrides "refs/heads/main" EmptyString) pushToMain exampleEnv
           exampleApp pushPayload "main" "https://github.com/octo/app.git");
    first [reflexivity | discriminate | (left; reflexivity)].
Defined.
